(** * golem-herder: usage ledger and container orchestration

    A shallow embedding of [metering/meter.go] (the usage ledger kept in a
    bolt store) and of the [container] package (predicates over container
    descriptors, the file loader, [Kill], [run] and [RunDaemonized]),
    together with the properties of the design document that concern them. *)

From Stdlib Require Import ZArith Lia Ascii String List.
From stdpp Require Import base option gmap strings list fin_maps.

Local Open Scope string_scope.
Local Open Scope Z_scope.

(** ** Go values shared by both packages *)

(** Go's [error] values, as far as the two packages produce or forward them:
    [fmt.Errorf] with its formatted message, the sentinel errors of bolt, the
    two kinds of [strconv.NumError], and an opaque error of a collaborator
    (docker daemon, file system, HTTP client). *)
Inductive error : Type :=
| Errorf (msg : string)
| ErrBucketExists
| ErrBucketNameRequired
| ErrKeyRequired
| ErrKeyTooLarge
| ErrValueTooLarge
| ErrSyntax (func num : string)
| ErrRange (func num : string)
| ExternalError (msg : string).

(** A Go result pair [(x, err)] in which exactly one side is meaningful. *)
Inductive result (A : Type) : Type :=
| Ok (a : A)
| Err (e : error).
Arguments Ok {A} a.
Arguments Err {A} e.

(** ** Machine integers: Go's [int] on a 64-bit platform *)

Module Int.

Definition min_int : Z := - 2 ^ 63.
Definition max_int : Z := 2 ^ 63 - 1.

Definition in_range (z : Z) : Prop := min_int <= z <= max_int.

Definition in_rangeb (z : Z) : bool := (min_int <=? z) && (z <=? max_int).

(** Two's complement wrap-around of an exact result. *)
Definition wrap (z : Z) : Z := (z + 2 ^ 63) mod 2 ^ 64 - 2 ^ 63.

Definition add (a b : Z) : Z := wrap (a + b).
Definition sub (a b : Z) : Z := wrap (a - b).

End Int.

(** ** strconv.Itoa and strconv.Atoi *)

Module Strconv.

Definition digit_char (d : Z) : ascii := ascii_of_N (Z.to_N (48 + d)).

Definition is_digit (c : ascii) : bool :=
  let n := Z.of_N (N_of_ascii c) in (48 <=? n) && (n <=? 57).

Definition digit_val (c : ascii) : Z := Z.of_N (N_of_ascii c) - 48.

(** Decimal digits of a non-negative number, most significant first,
    prepended to [acc]; [fuel] bounds the number of digits written. *)
Fixpoint format_digits (fuel : nat) (n : Z) (acc : string) : string :=
  match fuel with
  | O => acc
  | S fuel' =>
      let acc' := String (digit_char (n mod 10)) acc in
      if n / 10 =? 0 then acc' else format_digits fuel' (n / 10) acc'
  end.

Definition digits_fuel (n : Z) : nat := S (Z.to_nat (Z.log2 n)).

Definition format_uint (n : Z) : string :=
  format_digits (digits_fuel n) n "".

(** [strconv.Itoa]: a minus sign for negative numbers, then the digits. *)
Definition Itoa (i : Z) : string :=
  if i <? 0 then String "-" (format_uint (- i)) else format_uint i.

(** The digit loop of [strconv.Atoi]: [None] at the first byte that is not
    a decimal digit. *)
Fixpoint parse_digits (n : Z) (s : string) : option Z :=
  match s with
  | EmptyString => Some n
  | String c rest =>
      if is_digit c then parse_digits (n * 10 + digit_val c) rest else None
  end.

(** [strconv.Atoi]: an optional sign, at least one digit, nothing else, and
    a value that fits [int]. *)
Definition Atoi (s : string) : result Z :=
  match s with
  | EmptyString => Err (ErrSyntax "Atoi" s)
  | String c rest =>
      let neg := Ascii.eqb c "-" in
      let body := if neg || Ascii.eqb c "+" then rest else s in
      match body with
      | EmptyString => Err (ErrSyntax "Atoi" s)
      | _ =>
          match parse_digits 0 body with
          | None => Err (ErrSyntax "Atoi" s)
          | Some n =>
              let v := if neg then - n else n in
              if Int.in_rangeb v then Ok v else Err (ErrRange "Atoi" s)
          end
      end
  end.

(** A text whose first byte is a decimal digit. *)
Definition starts_with_digit (s : string) : Prop :=
  exists c rest, s = String c rest /\ is_digit c = true.

End Strconv.

(** ** The bolt store, as far as the ledger uses it *)

Module Bolt.

(** A bucket maps keys to values; the store maps bucket names to buckets.
    A transaction works on its own copy of the store. The store is kept in
    memory: opening it, committing and reading never fail for reasons of
    the disk. *)
Abbreviation DB := (gmap string (gmap string string)).
Abbreviation Tx := (gmap string (gmap string string)).

Definition MaxKeySize : Z := 32768.
Definition MaxValueSize : Z := 2 ^ 31 - 2.

(** [tx.CreateBucket(name)]: the handle of the new, empty bucket (its name)
    or the reason why it was not created. *)
Definition CreateBucket (name : string) (tx : Tx) : result string * Tx :=
  if decide (name = "") then (Err ErrBucketNameRequired, tx)
  else match tx !! name with
       | Some _ => (Err ErrBucketExists, tx)
       | None => (Ok name, <[name := ∅]> tx)
       end.

(** [tx.Bucket(name)]: the handle, or nil when there is no such bucket. *)
Definition Bucket (name : string) (tx : Tx) : option string :=
  match tx !! name with
  | Some _ => Some name
  | None => None
  end.

(** [b.Get(key)]: nil when the key is absent. *)
Definition Get (b key : string) (tx : Tx) : option string :=
  match tx !! b with
  | Some bucket => bucket !! key
  | None => None
  end.

(** [b.Put(key, value)] inside a writable transaction. *)
Definition Put (b key value : string) (tx : Tx) : option error * Tx :=
  if decide (key = "") then (Some ErrKeyRequired, tx)
  else if decide (MaxKeySize < Z.of_nat (String.length key)) then (Some ErrKeyTooLarge, tx)
  else if decide (MaxValueSize < Z.of_nat (String.length value)) then (Some ErrValueTooLarge, tx)
  else match tx !! b with
       | Some bucket => (None, <[b := <[key := value]> bucket]> tx)
       | None => (None, tx)
       end.

(** [db.Update(fn)]: the changes of [fn] are committed when it returns nil
    and rolled back when it returns an error, which is passed on. *)
Definition Update (fn : Tx -> option error * Tx) (db : DB) : option error * DB :=
  match fn db with
  | (None, tx') => (None, tx')
  | (Some e, _) => (Some e, db)
  end.

(** [db.View(fn)]: a read-only transaction; only the error comes back. *)
Definition View {A : Type} (fn : Tx -> A) (db : DB) : A := fn db.

End Bolt.

(** ** metering/meter.go *)

Module Metering.
Import Strconv Bolt.

Record Meter : Type := { ID : string }.

Record Status : Type := { StatusMillisecondsRemaining : Z }.

Definition NewMeter (id : string) (remainingMs : Z) (db : DB)
  : (option Meter * option error) * DB :=
  let '(err, db') :=
    Update (fun tx =>
      match CreateBucket id tx with
      | (Ok b, tx1) =>
          let '(_, tx2) := Put b "MillisecondsRemaining" (Itoa remainingMs) tx1 in
          let '(_, tx3) := Put b "MillisecondsUsed" "0" tx2 in
          (None, tx3)
      | (Err _, tx1) => (None, tx1)
      end) db in
  match err with
  | Some e => ((None, Some e), db')
  | None => ((Some {| ID := id |}, None), db')
  end.

(** The closure of [MillisecondsRemaining]: the value left in [msr] and the
    error the closure returns. *)
Definition MillisecondsRemaining_view (m : Meter) (tx : Tx) : Z * option error :=
  let msr := 0 in
  match Bucket (ID m) tx with
  | Some b =>
      match Get b "MillisecondsRemaining" tx with
      | Some res =>
          match Atoi res with
          | Err err => (msr, Some err)
          | Ok ms => (ms, Some (Errorf "Could not get time remaining"))
          end
      | None => (msr, Some (Errorf "Could not get time remaining"))
      end
  | None => (msr, Some (Errorf "Could not get time remaining"))
  end.

Definition MillisecondsRemaining (m : Meter) (db : DB) : Z * option error :=
  let '(msr, err) := View (MillisecondsRemaining_view m) db in
  match err with
  | Some e => (0, Some e)
  | None => (msr, None)
  end.

(** Reading one counter inside [RecordMilliseconds]: an absent key leaves
    the variable at its zero value. *)
Definition read_counter (b key : string) (tx : Tx) : result Z :=
  match Get b key tx with
  | Some res => Atoi res
  | None => Ok 0
  end.

Definition RecordMilliseconds_update (m : Meter) (ms : Z) (tx : Tx)
  : option error * Tx :=
  match Bucket (ID m) tx with
  | Some b =>
      match read_counter b "MillisecondsRemaining" tx with
      | Err err => (Some err, tx)
      | Ok remaining =>
          if remaining <=? 0
          then (Some (Errorf "Could not record time - no time left"), tx)
          else
            match read_counter b "MillisecondsUsed" tx with
            | Err err => (Some err, tx)
            | Ok used =>
                match Put b "MillisecondsRemaining" (Itoa (Int.sub remaining ms)) tx with
                | (Some err, tx1) => (Some err, tx1)
                | (None, tx1) =>
                    match Put b "MillisecondsUsed" (Itoa (Int.add used ms)) tx1 with
                    | (Some err, tx2) => (Some err, tx2)
                    | (None, tx2) => (None, tx2)
                    end
                end
            end
      end
  | None => (Some (Errorf "Could not update for given id"), tx)
  end.

Definition RecordMilliseconds (m : Meter) (ms : Z) (db : DB) : option error * DB :=
  Update (RecordMilliseconds_update m ms) db.

Definition Inspect (m : Meter) (db : DB) : option Status * option error :=
  match MillisecondsRemaining m db with
  | (_, Some err) => (None, Some err)
  | (msr, None) => (Some {| StatusMillisecondsRemaining := msr |}, None)
  end.

(** What the store holds for an identity: its bucket exists and the two
    counters read back as [remaining] and [used]. *)
Definition entry (db : DB) (id : string) (remaining used : Z) : Prop :=
  exists bucket sr su,
    db !! id = Some bucket /\
    bucket !! "MillisecondsRemaining" = Some sr /\ Atoi sr = Ok remaining /\
    bucket !! "MillisecondsUsed" = Some su /\ Atoi su = Ok used.

End Metering.

(** ** Programs that talk to the docker daemon, the file system and HTTP *)

Module Docker.

(** [docker.APIContainers], the descriptor returned by a listing. *)
Record APIContainers : Type := {
  ID : string;
  Names : list string;
  Labels : gmap string string;
  State : string
}.

(** [*docker.Container], the handle returned by creation and inspection. *)
Record Container : Type := {
  Container_ID : string;
  Container_State_Running : bool
}.

Record Mount : Type := { Source : string; Destination : string }.

Record PortBinding : Type := { HostIP : string; HostPort : string }.

Record Config : Type := {
  Image : string;
  Config_Labels : gmap string string;
  ExposedPorts : gset string;
  Mounts : list Mount;
  AttachStdout : bool;
  AttachStderr : bool;
  AttachStdin : bool;
  OpenStdin : bool;
  Tty : bool
}.

Record HostConfig : Type := {
  PortBindings : gmap string (list PortBinding);
  Binds : list string
}.

Record CreateContainerOptions : Type := {
  Name : string;
  Options_Config : Config;
  Options_HostConfig : HostConfig
}.

(** [*docker.Client]: the connection all calls go through. *)
Inductive Client : Type := TheClient.

End Docker.

Module Http.

Record URL : Type := { URL_String : string; URL_Hostname : string }.

Record Request : Type := {
  Request_Method : string;
  Request_URL : string;
  Request_BasicAuth : option (string * string)
}.

Definition SetBasicAuth (username password : string) (r : Request) : Request :=
  {| Request_Method := Request_Method r;
     Request_URL := Request_URL r;
     Request_BasicAuth := Some (username, password) |}.

(** [*http.Response]; the body is a stream the environment knows by number. *)
Record Response : Type := { Body : nat }.

End Http.

Module Effects.
Import Docker Http.

Inductive Level : Type := InfoLevel | WarnLevel | ErrorLevel.

(** The calls the [container] package makes to its collaborators, indexed
    by the type of what comes back. *)
Inductive call : Type -> Type :=
| NewClientFromEnv : call (result Client)
| ListContainers (all : bool) : call (result (list APIContainers))
| PullImage (repository tag : string) : call (option error)
| CreateContainer (opts : CreateContainerOptions) : call (result Container)
| StartContainer (id : string) : call (option error)
| InspectContainer (id : string) : call (result Container)
| KillContainer (id : string) : call (option error)
| RemoveContainer (id : string) (force removeVolumes : bool) : call (option error)
| ViperGetString (key : string) : call string
| MkdirAll (path : string) : call (option error)
| WriteFile (filename content : string) : call (option error)
| HttpDo (request : Request) : call (option Response * option error)
| ReadAll (body : nat) : call (string * option error)
| BodyClose (body : nat) : call unit
| Log (level : Level) (msg : string) : call unit.

(** A Go function body: it returns, makes a call and goes on with the
    answer, or panics. *)
Inductive prog (A : Type) : Type :=
| Ret (a : A)
| Vis {X : Type} (c : call X) (k : X -> prog A)
| Panic (msg : string).
Arguments Ret {A} a.
Arguments Vis {A X} c k.
Arguments Panic {A} msg.

Fixpoint bind {A B : Type} (p : prog A) (f : A -> prog B) : prog B :=
  match p with
  | Ret a => f a
  | Vis c k => Vis c (fun x => bind (k x) f)
  | Panic msg => Panic msg
  end.

Definition trigger {X : Type} (c : call X) : prog X := Vis c Ret.

Definition log (level : Level) (msg : string) : prog unit := trigger (Log level msg).

(** One call together with its answer, as it appears in a run. *)
Inductive event : Type :=
| EvNewClientFromEnv (r : result Client)
| EvListContainers (all : bool) (r : result (list APIContainers))
| EvPullImage (repository tag : string) (r : option error)
| EvCreateContainer (opts : CreateContainerOptions) (r : result Container)
| EvStartContainer (id : string) (r : option error)
| EvInspectContainer (id : string) (r : result Container)
| EvKillContainer (id : string) (r : option error)
| EvRemoveContainer (id : string) (force removeVolumes : bool) (r : option error)
| EvViperGetString (key : string) (r : string)
| EvMkdirAll (path : string) (r : option error)
| EvWriteFile (filename content : string) (r : option error)
| EvHttpDo (request : Request) (r : option Response * option error)
| EvReadAll (body : nat) (r : string * option error)
| EvBodyClose (body : nat)
| EvLog (level : Level) (msg : string).

Definition event_of {X : Type} (c : call X) : X -> event :=
  match c in call X return X -> event with
  | NewClientFromEnv => EvNewClientFromEnv
  | ListContainers all => EvListContainers all
  | PullImage repository tag => EvPullImage repository tag
  | CreateContainer opts => EvCreateContainer opts
  | StartContainer id => EvStartContainer id
  | InspectContainer id => EvInspectContainer id
  | KillContainer id => EvKillContainer id
  | RemoveContainer id force removeVolumes => EvRemoveContainer id force removeVolumes
  | ViperGetString key => EvViperGetString key
  | MkdirAll path => EvMkdirAll path
  | WriteFile filename content => EvWriteFile filename content
  | HttpDo request => EvHttpDo request
  | ReadAll body => EvReadAll body
  | BodyClose body => fun _ => EvBodyClose body
  | Log level msg => fun _ => EvLog level msg
  end.

(** How a run ends. *)
Inductive outcome (A : Type) : Type :=
| Returned (a : A)
| Panicked (msg : string).
Arguments Returned {A} a.
Arguments Panicked {A} msg.

(** The collaborators: a state of the world and an answer to every call. *)
Definition handler (W : Type) : Type := forall X : Type, call X -> W -> X * W.

(** Running a program against its collaborators: the calls made with their
    answers, in order, how the program ended, and the world afterwards. *)
Fixpoint exec {W A : Type} (h : handler W) (p : prog A) (w : W)
  : list event * outcome A * W :=
  match p with
  | Ret a => ([], Returned a, w)
  | Vis c k =>
      let '(x, w1) := h _ c w in
      let '(tr, o, w2) := exec h (k x) w1 in
      (event_of c x :: tr, o, w2)
  | Panic msg => ([], Panicked msg, w)
  end.

Definition trace_of {W A : Type} (h : handler W) (p : prog A) (w : W) : list event :=
  fst (fst (exec h p w)).

Definition outcome_of {W A : Type} (h : handler W) (p : prog A) (w : W) : outcome A :=
  snd (fst (exec h p w)).

End Effects.

Declare Scope prog_scope.
Delimit Scope prog_scope with prog.
Notation "x <- p ;; q" := (Effects.bind p (fun x => q))
  (at level 100, p at next level, q at level 200, right associativity) : prog_scope.
Notation "p ;; q" := (Effects.bind p (fun _ => q))
  (at level 100, q at level 200, right associativity) : prog_scope.

(** ** The container package *)

Module ContainerPkg.
Import Docker Http Effects.
Local Open Scope prog_scope.

(** *** Predicates over container descriptors *)

Definition matcher : Type := APIContainers -> bool.

Definition And (a b : matcher) : matcher :=
  fun container => a container && b container.

Definition Or (a b : matcher) : matcher :=
  fun container => a container || b container.

Definition WithID (id : string) : matcher :=
  fun container => bool_decide (ID container = id).

(** The loop over [container.Names]: true at the first name equal to
    ["/" + name]. *)
Fixpoint any_name_is (wanted : string) (names : list string) : bool :=
  match names with
  | [] => false
  | containerName :: rest =>
      if bool_decide (containerName = wanted) then true else any_name_is wanted rest
  end.

Definition WithName (name : string) : matcher :=
  fun container => any_name_is ("/" ++ name) (Names container).

Definition WithLabel (label value : string) : matcher :=
  fun container =>
    match Labels container !! label with
    | Some labelValue => bool_decide (value = labelValue)
    | None => false
    end.

(** It also prints the state on standard output, which nothing reads. *)
Definition WithState (state : string) : matcher :=
  fun container => bool_decide (State container = state).

(** *** List *)

Definition List (client : option Client) (matches : matcher) (all : bool)
  : prog (result (list APIContainers)) :=
  c <- match client with
       | Some c => Ret (Ok c)
       | None => trigger NewClientFromEnv
       end ;;
  match c with
  | Err err =>
      log ErrorLevel "Could not create docker client" ;;
      Ret (Err err)
  | Ok _ =>
      r <- trigger (ListContainers all) ;;
      match r with
      | Err err =>
          log ErrorLevel "Error listing containers" ;;
          Ret (Err err)
      | Ok containers => Ret (Ok (List.filter matches containers))
      end
  end.

(** *** Kill *)

Definition Kill (matcher : matcher) (removeContainer destroyData : bool)
  : prog (option error) :=
  c <- trigger NewClientFromEnv ;;
  match c with
  | Err err =>
      log ErrorLevel "Could not create docker client" ;;
      Ret (Some err)
  | Ok client =>
      r <- List (Some client) matcher false ;;
      match r with
      | Err err =>
          log WarnLevel "Error listing containers" ;;
          Ret (Some err)
      | Ok containers =>
          if negb (Nat.eqb (length containers) 1) then
            log WarnLevel "Too many or too few matching containers" ;;
            Ret (Some (Errorf ("Expected 1 container to match name, got "
                                 ++ Strconv.Itoa (Z.of_nat (length containers)))))
          else
            match containers with
            | [] => Panic "index out of range"
            | c0 :: _ =>
                log InfoLevel "Killing container" ;;
                err <- trigger (KillContainer (ID c0)) ;;
                match err with
                | Some e => Ret (Some e)
                | None =>
                    if removeContainer then
                      log InfoLevel "Removing container" ;;
                      err <- trigger (RemoveContainer (ID c0) true destroyData) ;;
                      match err with
                      | Some e =>
                          log WarnLevel "Error removing container" ;;
                          Ret (Some e)
                      | None => Ret None
                      end
                    else Ret None
                end
            end
      end
  end.

(** *** run *)

(** The loop over [mounts]: one log line, one [docker.Mount] and one bind
    string per entry, in the order of the iteration. *)
Fixpoint prepare_mounts (entries : list (string * string))
  : prog (list Mount * list string) :=
  match entries with
  | [] => Ret ([], [])
  | (s, d) :: rest =>
      log InfoLevel "Preparing mount" ;;
      r <- prepare_mounts rest ;;
      Ret ({| Source := s; Destination := d |} :: fst r,
           (s ++ ":" ++ d) :: snd r)
  end.

(** The loop over [ports]: the exposed ports and the host bindings. *)
Definition prepare_ports (entries : list (Z * Z))
  : gset string * gmap string (list PortBinding) :=
  foldl (fun acc '(outsidePort, insidePort) =>
           let insidePortTCP := Strconv.Itoa insidePort ++ "/tcp" in
           ({[ insidePortTCP ]} ∪ fst acc,
            <[ insidePortTCP := [ {| HostIP := "0.0.0.0";
                                     HostPort := Strconv.Itoa outsidePort |} ] ]> (snd acc)))
        (∅, ∅) entries.

(** The end of [run], from [StartContainer] on; [container] is what
    creation returned (nil when the container was found by name). *)
Definition start_and_inspect (container : option Container) (containerID : string)
  : prog (option Container * option error) :=
  log InfoLevel "Created/found container" ;;
  err <- trigger (StartContainer containerID) ;;
  match err with
  | Some e =>
      log ErrorLevel "Error starting container" ;;
      Ret (None, Some e)
  | None =>
      log InfoLevel "Container (re-)started" ;;
      r <- trigger (InspectContainer containerID) ;;
      match r with
      | Err _ => Ret (container, None)
      | Ok c => Ret (Some c, None)
      end
  end.

Definition run (client : Client) (name repository tag : string)
  (ports : gmap Z Z) (mounts labels : gmap string string) (restart : bool)
  : prog (option Container * option error) :=
  log InfoLevel "Pulling image" ;;
  err <- trigger (PullImage repository tag) ;;
  match err with
  | Some e => Ret (None, Some e)
  | None =>
      m <- prepare_mounts (map_to_list mounts) ;;
      let '(ms, binds) := m in
      let '(exposedPorts, portBindings) := prepare_ports (map_to_list ports) in
      created <- trigger (CreateContainer
        {| Name := name;
           Options_Config :=
             {| Image := repository ++ ":" ++ tag;
                Config_Labels := labels;
                ExposedPorts := exposedPorts;
                Mounts := ms;
                AttachStdout := true;
                AttachStderr := true;
                AttachStdin := true;
                OpenStdin := true;
                Tty := true |};
           Options_HostConfig :=
             {| PortBindings := portBindings; Binds := binds |} |}) ;;
      match created with
      | Err err =>
          log ErrorLevel "Error creating container" ;;
          if negb restart then Ret (None, Some err)
          else
            log InfoLevel "Looking for container" ;;
            found <- List (Some client) (WithName name) true ;;
            match found with
            | Err err' => Ret (None, Some err')
            | Ok containers =>
                if negb (Nat.eqb (length containers) 1) then
                  Ret (None, Some (Errorf
                    ("Could not create nor find container with name " ++ name)))
                else
                  match containers with
                  | [] => Panic "index out of range"
                  | c0 :: _ => start_and_inspect None (ID c0)
                  end
            end
      | Ok container => start_and_inspect (Some container) (Container_ID container)
      end
  end.

Section Libraries.

(** Pure functions of Go's standard library whose results the package
    only passes on: [url.Parse], [http.NewRequest] and [path.Join]
    ([filepath.Join] is the same function on the hosts concerned). *)
Variable url_Parse : string -> result URL.
Variable http_NewRequest : string -> string -> option Request * option error.
Variable path_Join : string -> string -> string.

(** *** LoadFiles *)

(** The body of the goroutine started for an entry whose content is a
    URL. Calling a method of a nil request, or reading the body of a nil
    response, is a nil pointer dereference. *)
Definition fetch_file (dir name : string) (url : URL) : prog unit :=
  let '(request, err) := http_NewRequest "GET" (URL_String url) in
  match err with
  | Some _ => log WarnLevel "Could not create request"
  | None => Ret tt
  end ;;
  request <- (if bool_decide (URL_Hostname url = "webstrates.cs.au.dk")
                 || bool_decide (URL_Hostname url = "hiraku.cs.au.dk")
              then match request with
                   | Some r => Ret (Some (SetBasicAuth "web" "strate" r))
                   | None => Panic "nil pointer dereference"
                   end
              else Ret request) ;;
  match request with
  | None => Panic "nil pointer dereference"
  | Some request =>
      r <- trigger (HttpDo request) ;;
      let '(response, err) := r in
      match err with
      | Some _ => log WarnLevel "Could not GET content to store in container"
      | None => Ret tt
      end ;;
      match response with
      | None => Panic "nil pointer dereference"
      | Some response =>
          b <- trigger (ReadAll (Body response)) ;;
          let '(fetchedContent, err) := b in
          match err with
          | Some _ => log WarnLevel "Error getting body"
          | None => Ret tt
          end ;;
          log InfoLevel "Writing fetched content to tmp dir" ;;
          err <- trigger (WriteFile (path_Join dir name) fetchedContent) ;;
          match err with
          | Some _ => log WarnLevel "Could not write file to tmp dir"
          | None => Ret tt
          end ;;
          trigger (BodyClose (Body response))
      end
  end.

(** The goroutines started so far, run one after the other. A panic in
    any of them ends the whole process. *)
Fixpoint run_goroutines (spawned : list (prog unit)) : prog unit :=
  match spawned with
  | [] => Ret tt
  | g :: rest => g ;; run_goroutines rest
  end.

(** The loop of [LoadFiles] over the entries in the order of the
    iteration. The goroutines are scheduled when the calling path gives
    up control: at [wg.Wait()], or at the early return after which they
    go on in the background. *)
Fixpoint load_entries (dir : string) (entries : list (string * string))
  (spawned : list (prog unit)) : prog (option error) :=
  match entries with
  | [] => run_goroutines spawned ;; Ret None
  | (name, content) :: rest =>
      match url_Parse content, String.prefix "http" content with
      | Ok url, true =>
          load_entries dir rest (spawned ++ [fetch_file dir name url])
      | _, _ =>
          log InfoLevel "Writing provided content to tmp dir" ;;
          err <- trigger (WriteFile (path_Join dir name) content) ;;
          match err with
          | Some e =>
              log WarnLevel "Could not write file to tmp dir" ;;
              run_goroutines spawned ;;
              Ret (Some e)
          | None => load_entries dir rest spawned
          end
      end
  end.

Definition LoadFiles (dir : string) (files : gmap string string)
  : prog (option error) :=
  load_entries dir (map_to_list files) [].

(** *** RunDaemonized *)

(** The mounts literal of [RunDaemonized]: two entries under the same
    key, written one after the other. *)
Definition daemon_mounts (hostdir name : string) : gmap string string :=
  <[ hostdir := "/minion" ]> (<[ hostdir := "/" ++ name ]> ∅).

(** [RunDaemonized] called without channels ([done], [stdout] and
    [stderr] nil), so that no monitor and no output pump is started. *)
Definition RunDaemonized (name repository tag : string) (ports : gmap Z Z)
  (files labels : gmap string string) (restart : bool)
  : prog (option Container * option error) :=
  c <- trigger NewClientFromEnv ;;
  match c with
  | Err err =>
      log ErrorLevel "Could not create docker client" ;;
      Ret (None, Some err)
  | Ok client =>
      root <- trigger (ViperGetString "mounts") ;;
      let hostdir := path_Join root name in
      err <- trigger (MkdirAll hostdir) ;;
      match err with
      | Some e => Ret (None, Some e)
      | None =>
          let mounts := daemon_mounts hostdir name in
          err <- LoadFiles hostdir files ;;
          match err with
          | Some e => Ret (None, Some e)
          | None =>
              r <- run client name repository tag ports mounts labels restart ;;
              match r with
              | (_, Some e) => Ret (None, Some e)
              | (c, None) => Ret (c, None)
              end
          end
      end
  end.

End Libraries.

End ContainerPkg.

(** ** Vocabulary for runs *)

Module Traces.
Import Docker Http Effects.

Definition is_log (ev : event) : bool :=
  match ev with
  | EvLog _ _ => true
  | _ => false
  end.

Definition is_kill_or_remove (ev : event) : bool :=
  match ev with
  | EvKillContainer _ _ | EvRemoveContainer _ _ _ _ => true
  | _ => false
  end.

(** The calls [LoadFiles] and its goroutines can make. *)
Definition is_loader_event (ev : event) : bool :=
  match ev with
  | EvLog _ _ | EvWriteFile _ _ _ | EvHttpDo _ _ | EvReadAll _ _ | EvBodyClose _ => true
  | _ => false
  end.

(** A GET that came back without a response. *)
Definition is_failed_get (ev : event) : bool :=
  match ev with
  | EvHttpDo _ (None, _) => true
  | _ => false
  end.

(** What the loop over the mounts of [run] computes, without its log lines. *)
Definition mounts_of (entries : list (string * string)) : list Mount :=
  map (fun '(s, d) => {| Source := s; Destination := d |}) entries.

Definition binds_of (entries : list (string * string)) : list string :=
  map (fun '(s, d) => s ++ ":" ++ d) entries.

(** A program that only makes loader calls and that ends in a nil pointer
    dereference whenever one of its GETs came back without a response. *)
Definition loader_ok {W A : Type} (h : handler W) (p : prog A) : Prop :=
  forall w,
    (forall ev, In ev (trace_of h p w) -> is_loader_event ev = true) /\
    ((exists ev, In ev (trace_of h p w) /\ is_failed_get ev = true) ->
     outcome_of h p w = Panicked "nil pointer dereference").

End Traces.

(** ** Sample stores and collaborators *)

Module Fixtures.
Import Docker Http Effects.

(** A store with one entry: 5 ms left, 0 used. *)
Definition one_entry_db : Bolt.DB :=
  {[ "u1" := <["MillisecondsUsed" := "0"]> {[ "MillisecondsRemaining" := "5" ]} ]}.

(** Collaborators that give the same answer to every call of a kind. *)
Record answers : Type := {
  on_NewClientFromEnv : result Client;
  on_ListContainers : result (list APIContainers);
  on_PullImage : option error;
  on_CreateContainer : result Container;
  on_StartContainer : option error;
  on_InspectContainer : result Container;
  on_KillContainer : option error;
  on_RemoveContainer : option error;
  on_ViperGetString : string;
  on_MkdirAll : option error;
  on_WriteFile : option error;
  on_HttpDo : option Response * option error;
  on_ReadAll : string * option error
}.

Definition scripted (a : answers) : handler unit :=
  fun X c w =>
    (match c in call X return X with
     | NewClientFromEnv => on_NewClientFromEnv a
     | ListContainers _ => on_ListContainers a
     | PullImage _ _ => on_PullImage a
     | CreateContainer _ => on_CreateContainer a
     | StartContainer _ => on_StartContainer a
     | InspectContainer _ => on_InspectContainer a
     | KillContainer _ => on_KillContainer a
     | RemoveContainer _ _ _ => on_RemoveContainer a
     | ViperGetString _ => on_ViperGetString a
     | MkdirAll _ => on_MkdirAll a
     | WriteFile _ _ => on_WriteFile a
     | HttpDo _ => on_HttpDo a
     | ReadAll _ => on_ReadAll a
     | BodyClose _ => tt
     | Log _ _ => tt
     end, w).

Definition golem : APIContainers :=
  {| ID := "c0ffee"; Names := ["/golem"]; Labels := ∅; State := "running" |}.

Definition golem_handle : Container :=
  {| Container_ID := "c0ffee"; Container_State_Running := true |}.

(** A daemon on which everything works and that lists one container. *)
Definition all_fine : answers :=
  {| on_NewClientFromEnv := Ok TheClient;
     on_ListContainers := Ok [golem];
     on_PullImage := None;
     on_CreateContainer := Ok golem_handle;
     on_StartContainer := None;
     on_InspectContainer := Ok golem_handle;
     on_KillContainer := None;
     on_RemoveContainer := None;
     on_ViperGetString := "/mnt";
     on_MkdirAll := None;
     on_WriteFile := None;
     on_HttpDo := (Some {| Body := 0 |}, None);
     on_ReadAll := ("fetched", None) |}.

(** The same daemon refusing to create a container (the name is taken). *)
Definition name_taken : answers :=
  {| on_NewClientFromEnv := Ok TheClient;
     on_ListContainers := Ok [golem];
     on_PullImage := None;
     on_CreateContainer := Err (ExternalError "container already exists");
     on_StartContainer := None;
     on_InspectContainer := Ok golem_handle;
     on_KillContainer := None;
     on_RemoveContainer := None;
     on_ViperGetString := "/mnt";
     on_MkdirAll := None;
     on_WriteFile := None;
     on_HttpDo := (Some {| Body := 0 |}, None);
     on_ReadAll := ("fetched", None) |}.

(** The same daemon failing to inspect. *)
Definition inspect_fails : answers :=
  {| on_NewClientFromEnv := Ok TheClient;
     on_ListContainers := Ok [golem];
     on_PullImage := None;
     on_CreateContainer := Ok golem_handle;
     on_StartContainer := None;
     on_InspectContainer := Err (ExternalError "no such container");
     on_KillContainer := None;
     on_RemoveContainer := None;
     on_ViperGetString := "/mnt";
     on_MkdirAll := None;
     on_WriteFile := None;
     on_HttpDo := (Some {| Body := 0 |}, None);
     on_ReadAll := ("fetched", None) |}.

(** The name is taken by the one container listed, which starts and then
    cannot be inspected. *)
Definition found_not_inspected : answers :=
  {| on_NewClientFromEnv := Ok TheClient;
     on_ListContainers := Ok [golem];
     on_PullImage := None;
     on_CreateContainer := Err (ExternalError "container already exists");
     on_StartContainer := None;
     on_InspectContainer := Err (ExternalError "no such container");
     on_KillContainer := None;
     on_RemoveContainer := None;
     on_ViperGetString := "/mnt";
     on_MkdirAll := None;
     on_WriteFile := None;
     on_HttpDo := (Some {| Body := 0 |}, None);
     on_ReadAll := ("fetched", None) |}.

(** A network on which every GET fails. *)
Definition get_fails : answers :=
  {| on_NewClientFromEnv := Ok TheClient;
     on_ListContainers := Ok [golem];
     on_PullImage := None;
     on_CreateContainer := Ok golem_handle;
     on_StartContainer := None;
     on_InspectContainer := Ok golem_handle;
     on_KillContainer := None;
     on_RemoveContainer := None;
     on_ViperGetString := "/mnt";
     on_MkdirAll := None;
     on_WriteFile := None;
     on_HttpDo := (None, Some (ExternalError "connection refused"));
     on_ReadAll := ("", None) |}.

(** Stand-ins for [url.Parse], [http.NewRequest] and [path.Join] that are
    right on the strings used with them below. *)
Definition sample_url_Parse (s : string) : result URL :=
  Ok {| URL_String := s;
        URL_Hostname := if String.prefix "http://example/" s then "example" else "" |}.

Definition sample_NewRequest (method url : string) : option Request * option error :=
  (Some {| Request_Method := method; Request_URL := url; Request_BasicAuth := None |},
   None).

Definition sample_Join (a b : string) : string := a ++ "/" ++ b.

Definition two_files : gmap string string :=
  {[ "a.txt" := "hello"; "b.txt" := "http://example/x" ]}.

End Fixtures.

(** ** Sequences of ledger operations *)

Module LedgerOps.
Import Bolt Metering.

(** A call of the package on the shared store. *)
Inductive op : Type :=
| OpNewMeter (id : string) (remainingMs : Z)
| OpRecordMilliseconds (id : string) (ms : Z).

(** The store after one call, whatever the call returned. *)
Definition apply_op (db : DB) (o : op) : DB :=
  match o with
  | OpNewMeter id remainingMs => snd (NewMeter id remainingMs db)
  | OpRecordMilliseconds id ms => snd (RecordMilliseconds {| ID := id |} ms db)
  end.

Definition apply_ops (ops : list op) (db : DB) : DB := fold_left apply_op ops db.

(** The amounts passed are values of type [int]. *)
Definition op_in_range (o : op) : Prop :=
  match o with
  | OpNewMeter _ remainingMs => Int.in_range remainingMs
  | OpRecordMilliseconds _ ms => Int.in_range ms
  end.

(** Every bucket of the store holds two counters that read back as
    integers. *)
Definition well_formed (db : DB) : Prop :=
  forall id bucket, db !! id = Some bucket -> exists remaining used, entry db id remaining used.

End LedgerOps.

(** ** More vocabulary for runs *)

Module MoreTraces.
Import Docker Http Effects ContainerPkg.

(** The calls [List] can make. *)
Definition is_listing_event (ev : event) : bool :=
  match ev with
  | EvNewClientFromEnv _ | EvListContainers _ _ | EvLog _ _ => true
  | _ => false
  end.

(** Calls that create, start or look at a container. *)
Definition is_container_call (ev : event) : bool :=
  match ev with
  | EvCreateContainer _ _ | EvStartContainer _ _ | EvInspectContainer _ _
  | EvListContainers _ _ | EvKillContainer _ _ | EvRemoveContainer _ _ _ _ => true
  | _ => false
  end.

(** Calls to the file system and the network. *)
Definition is_write (ev : event) : bool :=
  match ev with
  | EvWriteFile _ _ _ => true
  | _ => false
  end.

Definition is_http (ev : event) : bool :=
  match ev with
  | EvHttpDo _ _ | EvReadAll _ _ | EvBodyClose _ => true
  | _ => false
  end.

(** What the loop over the ports has computed after some entries: every
    container port seen is exposed, the exposed ports are the bound ones, and
    each is bound to one host port of an entry seen, on all interfaces. *)
Definition ports_invariant (entries : list (Z * Z))
  (acc : gset string * gmap string (list PortBinding)) : Prop :=
  (forall outside inside, In (outside, inside) entries ->
     Strconv.Itoa inside ++ "/tcp" ∈ fst acc) /\
  (forall p, p ∈ fst acc <-> is_Some (snd acc !! p)) /\
  (forall p bs, snd acc !! p = Some bs ->
     exists outside inside,
       In (outside, inside) entries /\
       p = Strconv.Itoa inside ++ "/tcp" /\
       bs = [ {| HostIP := "0.0.0.0"; HostPort := Strconv.Itoa outside |} ]).

(** A program all of whose calls, against these collaborators, are of one
    kind. *)
Definition all_events {W A : Type} (h : handler W) (Q : event -> Prop) (p : prog A) : Prop :=
  forall w ev, In ev (trace_of h p w) -> Q ev.

(** The test of [LoadFiles] for "content is something we need to fetch". *)
Definition is_fetched (url_Parse : string -> result URL) (content : string) : bool :=
  match url_Parse content, String.prefix "http" content with
  | Ok _, true => true
  | _, _ => false
  end.

(** A write below [dir], to a file named by one of the names in [P]. *)
Definition writes_below (path_Join : string -> string -> string) (dir : string)
  (P : string -> Prop) (ev : event) : Prop :=
  match ev with
  | EvWriteFile path _ _ => exists name, P name /\ path = path_Join dir name
  | _ => True
  end.

(** The calls [run] can make. *)
Definition is_run_event (ev : event) : bool :=
  match ev with
  | EvLog _ _ | EvPullImage _ _ _ | EvCreateContainer _ _ | EvListContainers _ _
  | EvStartContainer _ _ | EvInspectContainer _ _ => true
  | _ => false
  end.

(** What [RunDaemonized] makes of the result of [run]. *)
Definition daemon_result (o : outcome (option Container * option error))
  : outcome (option Container * option error) :=
  match o with
  | Returned (_, Some e) => Returned (None, Some e)
  | Returned (c, None) => Returned (c, None)
  | Panicked msg => Panicked msg
  end.

(** Calls to the docker daemon about images and containers. *)
Definition is_docker_call (ev : event) : bool :=
  match ev with
  | EvPullImage _ _ _ => true
  | _ => is_container_call ev
  end.

End MoreTraces.

(** ** More sample stores *)

Module LedgerFixtures.

(** A store whose only entry is overdrawn: -100 ms left, 1100 used. *)
Definition overdrawn_db : Bolt.DB :=
  {[ "u1" := <["MillisecondsUsed" := "1100"]> {[ "MillisecondsRemaining" := "-100" ]} ]}.

(** A bucket that lost its balance. *)
Definition no_balance_db : Bolt.DB :=
  {[ "u1" := {[ "MillisecondsUsed" := "7" ]} ]}.

End LedgerFixtures.

Module MoreFixtures.
Import Docker Http Effects Fixtures.

(** A daemon that cannot pull the image. *)
Definition pull_fails : answers :=
  {| on_NewClientFromEnv := Ok TheClient;
     on_ListContainers := Ok [golem];
     on_PullImage := Some (ExternalError "no such image");
     on_CreateContainer := Ok golem_handle;
     on_StartContainer := None;
     on_InspectContainer := Ok golem_handle;
     on_KillContainer := None;
     on_RemoveContainer := None;
     on_ViperGetString := "/mnt";
     on_MkdirAll := None;
     on_WriteFile := None;
     on_HttpDo := (Some {| Body := 0 |}, None);
     on_ReadAll := ("fetched", None) |}.

(** The request that [run] sends for ["golem"] from image ["repo:latest"]
    without labels. *)
Definition golem_request (ports : gmap Z Z) (mounts : gmap string string)
  : CreateContainerOptions :=
  {| Name := "golem";
     Options_Config :=
       {| Image := "repo:latest";
          Config_Labels := ∅;
          ExposedPorts := fst (ContainerPkg.prepare_ports (map_to_list ports));
          Mounts := Traces.mounts_of (map_to_list mounts);
          AttachStdout := true;
          AttachStderr := true;
          AttachStdin := true;
          OpenStdin := true;
          Tty := true |};
     Options_HostConfig :=
       {| PortBindings := snd (ContainerPkg.prepare_ports (map_to_list ports));
          Binds := Traces.binds_of (map_to_list mounts) |} |}.

Definition webstrates_url : URL :=
  {| URL_String := "https://webstrates.cs.au.dk/logo.png";
     URL_Hostname := "webstrates.cs.au.dk" |}.

Definition example_url : URL :=
  {| URL_String := "http://example/x"; URL_Hostname := "example" |}.

(** The request that [sample_NewRequest] makes for a URL. *)
Definition get_request (url : URL) : Request :=
  {| Request_Method := "GET"; Request_URL := URL_String url; Request_BasicAuth := None |}.

(** A network on which the body of every response breaks off. *)
Definition read_fails : answers :=
  {| on_NewClientFromEnv := Ok TheClient;
     on_ListContainers := Ok [golem];
     on_PullImage := None;
     on_CreateContainer := Ok golem_handle;
     on_StartContainer := None;
     on_InspectContainer := Ok golem_handle;
     on_KillContainer := None;
     on_RemoveContainer := None;
     on_ViperGetString := "/mnt";
     on_MkdirAll := None;
     on_WriteFile := None;
     on_HttpDo := (Some {| Body := 0 |}, None);
     on_ReadAll := ("part", Some (ExternalError "unexpected EOF")) |}.

(** A host on which the directory of the run cannot be made. *)
Definition mkdir_fails : answers :=
  {| on_NewClientFromEnv := Ok TheClient;
     on_ListContainers := Ok [golem];
     on_PullImage := None;
     on_CreateContainer := Ok golem_handle;
     on_StartContainer := None;
     on_InspectContainer := Ok golem_handle;
     on_KillContainer := None;
     on_RemoveContainer := None;
     on_ViperGetString := "/mnt";
     on_MkdirAll := Some (ExternalError "permission denied");
     on_WriteFile := None;
     on_HttpDo := (Some {| Body := 0 |}, None);
     on_ReadAll := ("fetched", None) |}.

(** A daemon that creates the container and cannot start it. *)
Definition start_fails : answers :=
  {| on_NewClientFromEnv := Ok TheClient;
     on_ListContainers := Ok [golem];
     on_PullImage := None;
     on_CreateContainer := Ok golem_handle;
     on_StartContainer := Some (ExternalError "cannot start");
     on_InspectContainer := Ok golem_handle;
     on_KillContainer := None;
     on_RemoveContainer := None;
     on_ViperGetString := "/mnt";
     on_MkdirAll := None;
     on_WriteFile := None;
     on_HttpDo := (Some {| Body := 0 |}, None);
     on_ReadAll := ("fetched", None) |}.

End MoreFixtures.

(** ** RunLambda: waiting for the container and reading its logs *)

Module Lambda.
Import Docker Http Effects ContainerPkg.

(** [docker.LogsOptions], without the two streams the logs are written to. *)
Record LogsOptions : Type := {
  Logs_Container : string;
  Logs_Stdout : bool;
  Logs_Stderr : bool;
  Logs_RawTerminal : bool
}.

(** The calls of [RunLambda]: those of the rest of the package, waiting for
    a container to exit (the exit status and an error, also when the context
    is cancelled first), and reading the logs (what was written to the
    output stream and to the error stream, and an error). *)
Inductive lcall : Type -> Type :=
| Base {X : Type} (c : call X) : lcall X
| WaitContainerWithContext (id : string) : lcall (Z * option error)
| Logs (opts : LogsOptions) : lcall (string * string * option error).

Inductive lprog (A : Type) : Type :=
| LRet (a : A)
| LVis {X : Type} (c : lcall X) (k : X -> lprog A)
| LPanic (msg : string).
Arguments LRet {A} a.
Arguments LVis {A X} c k.
Arguments LPanic {A} msg.

Fixpoint lbind {A B : Type} (p : lprog A) (f : A -> lprog B) : lprog B :=
  match p with
  | LRet a => f a
  | LVis c k => LVis c (fun x => lbind (k x) f)
  | LPanic msg => LPanic msg
  end.

(** A function of the rest of the package, called from [RunLambda]. *)
Fixpoint lift {A : Type} (p : prog A) : lprog A :=
  match p with
  | Ret a => LRet a
  | Vis c k => LVis (Base c) (fun x => lift (k x))
  | Panic msg => LPanic msg
  end.

Definition ltrigger {X : Type} (c : lcall X) : lprog X := LVis c LRet.

Definition llog (level : Level) (msg : string) : lprog unit :=
  ltrigger (Base (Log level msg)).

Inductive levent : Type :=
| LEv (ev : event)
| LEvWait (id : string) (r : Z * option error)
| LEvLogs (opts : LogsOptions) (r : string * string * option error).

Definition levent_of {X : Type} (c : lcall X) : X -> levent :=
  match c in lcall X return X -> levent with
  | Base c => fun x => LEv (event_of c x)
  | WaitContainerWithContext id => LEvWait id
  | Logs opts => LEvLogs opts
  end.

Definition lhandler (W : Type) : Type := forall X : Type, lcall X -> W -> X * W.

(** The answers of the collaborators to the calls of the rest of the package. *)
Definition base_handler {W : Type} (lh : lhandler W) : handler W :=
  fun X c w => lh X (Base c) w.

Fixpoint lexec {W A : Type} (lh : lhandler W) (p : lprog A) (w : W)
  : list levent * outcome A * W :=
  match p with
  | LRet a => ([], Returned a, w)
  | LVis c k =>
      let '(x, w1) := lh _ c w in
      let '(tr, o, w2) := lexec lh (k x) w1 in
      (levent_of c x :: tr, o, w2)
  | LPanic msg => ([], Panicked msg, w)
  end.

Definition ltrace_of {W A : Type} (lh : lhandler W) (p : lprog A) (w : W) : list levent :=
  fst (fst (lexec lh p w)).

Definition loutcome_of {W A : Type} (lh : lhandler W) (p : lprog A) (w : W) : outcome A :=
  snd (fst (lexec lh p w)).

(** The part of [RunLambda] between the [defer] and the return: what is
    returned. A nil slice is the empty string. *)
Definition wait_and_collect (container : Container)
  : lprog (string * string * option error) :=
  lbind (ltrigger (WaitContainerWithContext (Container_ID container))) (fun waited =>
  match snd waited with
  | Some err =>
      lbind (llog WarnLevel "Error waiting for container to exit") (fun _ =>
      LRet ("", "", Some err))
  | None =>
      lbind (ltrigger (Logs {| Logs_Container := Container_ID container;
                               Logs_Stdout := true;
                               Logs_Stderr := false;
                               Logs_RawTerminal := true |})) (fun logged =>
      let '(stdout, stderr, err) := logged in
      lbind (match err with
             | Some _ => llog WarnLevel "Error getting container logs"
             | None => LRet tt
             end) (fun _ =>
      lbind (llog InfoLevel "Run done") (fun _ =>
      LRet (stdout, stderr, None))))
  end).

(** The deferred cleanup: its error is logged and goes nowhere. *)
Definition remove_lambda (container : Container) : lprog unit :=
  lbind (ltrigger (Base (RemoveContainer (Container_ID container) true true))) (fun err =>
  match err with
  | Some _ => llog WarnLevel "Error removing container"
  | None => LRet tt
  end).

Definition RunLambda (name repository tag : string) (mounts : gmap string string)
  : lprog (string * string * option error) :=
  lbind (ltrigger (Base NewClientFromEnv)) (fun c =>
  match c with
  | Err err =>
      lbind (llog ErrorLevel "Could not create docker client") (fun _ =>
      LRet ("", "", Some err))
  | Ok client =>
      lbind (lift (run client name repository tag ∅ mounts ∅ false)) (fun r =>
      match r with
      | (_, Some err) => LRet ("", "", Some err)
      | (None, None) => LPanic "nil pointer dereference"
      | (Some container, None) =>
          lbind (wait_and_collect container) (fun result =>
          lbind (remove_lambda container) (fun _ =>
          LRet result))
      end)
  end).

(** Vocabulary for runs of [RunLambda]. *)
Definition is_llog (ev : levent) : bool :=
  match ev with
  | LEv (EvLog _ _) => true
  | _ => false
  end.

Definition is_lremove (ev : levent) : bool :=
  match ev with
  | LEv (EvRemoveContainer _ _ _ _) => true
  | _ => false
  end.

(** A collaborator for [RunLambda]: the sample daemon for the calls of the
    rest of the package, and fixed answers to waiting and reading the logs. *)
Definition lscripted (a : Fixtures.answers)
  (waited : Z * option error) (logged : string * string * option error)
  : lhandler unit :=
  fun X c w =>
    match c in lcall X return X * unit with
    | Base c => Fixtures.scripted a _ c w
    | WaitContainerWithContext _ => (waited, w)
    | Logs _ => (logged, w)
    end.

End Lambda.

(** * Properties *)

(** ** Machine integers *)

Module IntFacts.
Import Int.

Lemma in_rangeb_true z : in_range z -> in_rangeb z = true.
Proof.
  unfold in_range, in_rangeb. intros [Hlo Hhi].
  apply andb_true_intro. split; apply Z.leb_le; assumption.
Qed.

Lemma wrap_in_range z : in_range (wrap z).
Proof.
  unfold in_range, wrap, min_int, max_int.
  pose proof (Z.mod_pos_bound (z + 2 ^ 63) (2 ^ 64) ltac:(lia)). lia.
Qed.

Lemma wrap_exact z : in_range z -> wrap z = z.
Proof.
  unfold in_range, wrap, min_int, max_int. intros H.
  rewrite Z.mod_small by lia. lia.
Qed.

End IntFacts.

(** ** Decimal conversion *)

Module StrconvFacts.
Import Strconv.

Lemma digit_char_is_digit d : 0 <= d < 10 -> is_digit (digit_char d) = true.
Proof.
  intros Hd. unfold is_digit, digit_char.
  rewrite N_ascii_embedding by lia.
  rewrite Z2N.id by lia.
  apply andb_true_intro. split; apply Z.leb_le; lia.
Qed.

Lemma digit_val_digit_char d : 0 <= d < 10 -> digit_val (digit_char d) = d.
Proof.
  intros Hd. unfold digit_val, digit_char.
  rewrite N_ascii_embedding by lia.
  rewrite Z2N.id by lia. lia.
Qed.

Lemma is_digit_not_sign c :
  is_digit c = true -> Ascii.eqb c "-" = false /\ Ascii.eqb c "+" = false.
Proof.
  intros Hc. split.
  - destruct (Ascii.eqb_spec c "-") as [-> | _]; [discriminate Hc | reflexivity].
  - destruct (Ascii.eqb_spec c "+") as [-> | _]; [discriminate Hc | reflexivity].
Qed.

(** Parsing what [format_digits] wrote gives the number back. *)
Lemma parse_format_digits fuel : forall n acc,
  0 <= n < 10 ^ Z.of_nat fuel ->
  parse_digits 0 (format_digits fuel n acc) = parse_digits n acc.
Proof.
  induction fuel as [| fuel IH]; intros n acc Hn.
  - simpl in *. replace n with 0 by lia. reflexivity.
  - cbn [format_digits].
    assert (Hd : 0 <= n mod 10 < 10) by (apply Z.mod_pos_bound; lia).
    pose proof (Z.div_mod n 10 ltac:(lia)) as Hdm.
    destruct (Z.eqb_spec (n / 10) 0) as [Hz | Hnz].
    + cbn [parse_digits]. rewrite digit_char_is_digit, digit_val_digit_char by assumption.
      f_equal. lia.
    + rewrite IH.
      * cbn [parse_digits]. rewrite digit_char_is_digit, digit_val_digit_char by assumption.
        f_equal. lia.
      * split; [apply Z.div_pos; lia |].
        apply Z.div_lt_upper_bound; [lia |].
        rewrite Nat2Z.inj_succ, Z.pow_succ_r in Hn by lia. lia.
Qed.

Lemma digits_fuel_enough n : 0 <= n -> n < 10 ^ Z.of_nat (digits_fuel n).
Proof.
  intros Hn. unfold digits_fuel.
  rewrite Nat2Z.inj_succ, Z2Nat.id by apply Z.log2_nonneg.
  destruct (Z.eq_dec n 0) as [-> | Hnz].
  - reflexivity.
  - destruct (Z.log2_spec n ltac:(lia)) as [_ Hlt].
    eapply Z.lt_le_trans; [exact Hlt |].
    apply Z.pow_le_mono_l. lia.
Qed.

Lemma parse_format_uint n : 0 <= n -> parse_digits 0 (format_uint n) = Some n.
Proof.
  intros Hn. unfold format_uint.
  rewrite parse_format_digits; [reflexivity |].
  split; [assumption | apply digits_fuel_enough; assumption].
Qed.

Lemma format_digits_head fuel : forall n acc,
  0 <= n -> starts_with_digit acc -> starts_with_digit (format_digits fuel n acc).
Proof.
  induction fuel as [| fuel IH]; intros n acc Hn Hacc; [exact Hacc |].
  cbn [format_digits].
  assert (Hhead : starts_with_digit (String (digit_char (n mod 10)) acc)).
  { eexists _, _. split; [reflexivity |].
    apply digit_char_is_digit, Z.mod_pos_bound. lia. }
  destruct (n / 10 =? 0); [exact Hhead |].
  apply IH; [apply Z.div_pos; lia | exact Hhead].
Qed.

Lemma format_uint_head n : 0 <= n -> starts_with_digit (format_uint n).
Proof.
  intros Hn. unfold format_uint, digits_fuel. cbn [format_digits].
  assert (Hhead : starts_with_digit (String (digit_char (n mod 10)) "")).
  { eexists _, _. split; [reflexivity |].
    apply digit_char_is_digit, Z.mod_pos_bound. lia. }
  destruct (n / 10 =? 0); [exact Hhead |].
  apply format_digits_head; [apply Z.div_pos; lia | exact Hhead].
Qed.

(** [Atoi] reads back what [Itoa] wrote, for every value of type [int]. *)
Lemma Atoi_Itoa z : Int.in_range z -> Atoi (Itoa z) = Ok z.
Proof.
  intros Hz. unfold Itoa.
  destruct (Z.ltb_spec z 0) as [Hneg | Hpos].
  - destruct (format_uint_head (- z) ltac:(lia)) as (c & rest & Heq & Hc).
    unfold Atoi. cbn [Ascii.eqb Bool.eqb orb].
    rewrite Heq, <- Heq, parse_format_uint by lia.
    replace (- - z) with z by lia.
    rewrite IntFacts.in_rangeb_true by assumption. reflexivity.
  - destruct (format_uint_head z Hpos) as (c & rest & Heq & Hc).
    pose proof (parse_format_uint z Hpos) as Hparse.
    destruct (is_digit_not_sign c Hc) as [Hm Hp].
    rewrite Heq in *. unfold Atoi. rewrite Hm, Hp. cbn [orb].
    rewrite Hparse, IntFacts.in_rangeb_true by assumption. reflexivity.
Qed.

Lemma format_digits_length fuel : forall n acc,
  (String.length (format_digits fuel n acc) <= fuel + String.length acc)%nat.
Proof.
  induction fuel as [| fuel IH]; intros n acc; [simpl; lia |].
  cbn [format_digits]. destruct (n / 10 =? 0).
  - simpl. lia.
  - specialize (IH (n / 10) (String (digit_char (n mod 10)) acc)).
    simpl in IH. lia.
Qed.

(** An [int] takes at most a sign and 64 digits. *)
Lemma Itoa_length z : Int.in_range z -> (String.length (Itoa z) <= 65)%nat.
Proof.
  unfold Int.in_range, Int.min_int, Int.max_int. intros Hz.
  assert (Hfuel : forall n, 0 <= n <= 2 ^ 63 -> (digits_fuel n <= 64)%nat).
  { intros n Hn. unfold digits_fuel.
    pose proof (Z.log2_le_mono n (2 ^ 63) ltac:(lia)) as Hlog.
    rewrite Z.log2_pow2 in Hlog by lia.
    pose proof (Z.log2_nonneg n). lia. }
  unfold Itoa. destruct (Z.ltb_spec z 0).
  - cbn [String.length]. unfold format_uint.
    pose proof (format_digits_length (digits_fuel (- z)) (- z) "").
    pose proof (Hfuel (- z) ltac:(lia)). cbn [String.length] in *. lia.
  - unfold format_uint.
    pose proof (format_digits_length (digits_fuel z) z "").
    pose proof (Hfuel z ltac:(lia)). cbn [String.length] in *. lia.
Qed.

End StrconvFacts.

(** ** The usage ledger *)

Module MeteringFacts.
Import Strconv Bolt Metering.

Abbreviation remaining_key := ("MillisecondsRemaining"%string).
Abbreviation used_key := ("MillisecondsUsed"%string).

(** Writing a counter into an existing bucket cannot fail: the key is one
    of the two field names and the value is a formatted [int]. *)
Lemma Put_counter (tx : Tx) (b key : string) (bucket : gmap string string) (z : Z) :
  tx !! b = Some bucket ->
  key = remaining_key \/ key = used_key ->
  Int.in_range z ->
  Put b key (Itoa z) tx = (None, <[b := <[key := Itoa z]> bucket]> tx).
Proof.
  intros Hb Hkey Hz. unfold Put.
  pose proof (StrconvFacts.Itoa_length z Hz) as Hlen.
  destruct Hkey as [-> | ->].
  - rewrite decide_False by discriminate.
    rewrite decide_False by (cbn; unfold MaxKeySize; lia).
    rewrite decide_False by (unfold MaxValueSize; lia).
    rewrite Hb. reflexivity.
  - rewrite decide_False by discriminate.
    rewrite decide_False by (cbn; unfold MaxKeySize; lia).
    rewrite decide_False by (unfold MaxValueSize; lia).
    rewrite Hb. reflexivity.
Qed.

Lemma Bucket_Some (tx : Tx) (id : string) (bucket : gmap string string) :
  tx !! id = Some bucket -> Bucket id tx = Some id.
Proof. intros H. unfold Bucket. rewrite H. reflexivity. Qed.

Lemma read_counter_Some (tx : Tx) (id key s : string) (bucket : gmap string string) :
  tx !! id = Some bucket -> bucket !! key = Some s ->
  read_counter id key tx = Atoi s.
Proof. intros Hb Hk. unfold read_counter, Get. rewrite Hb, Hk. reflexivity. Qed.

(** A fresh, non-empty identity gets a bucket with the two counters. *)
Lemma NewMeter_fresh (db : DB) (id : string) (remainingMs : Z) :
  id <> "" -> db !! id = None -> Int.in_range remainingMs ->
  NewMeter id remainingMs db =
    ((Some {| ID := id |}, None),
     <[id := <[used_key := "0"]> (<[remaining_key := Itoa remainingMs]> ∅)]> db).
Proof.
  intros Hid Hfresh Hr. unfold NewMeter, Update, CreateBucket.
  rewrite decide_False by assumption. rewrite Hfresh.
  rewrite (Put_counter _ id remaining_key ∅ remainingMs);
    [| apply lookup_insert_eq | left; reflexivity | assumption].
  change "0"%string with (Itoa 0).
  erewrite (Put_counter _ id used_key);
    [| apply lookup_insert_eq | right; reflexivity | vm_compute; split; discriminate].
  rewrite !insert_insert_eq. reflexivity.
Qed.

(** The bucket of a fresh identity is an entry with the given balance and
    nothing used. *)
Lemma NewMeter_fresh_entry (db : DB) (id : string) (remainingMs : Z) :
  id <> "" -> db !! id = None -> Int.in_range remainingMs ->
  entry (snd (NewMeter id remainingMs db)) id remainingMs 0.
Proof.
  intros Hid Hfresh Hr. rewrite NewMeter_fresh by assumption. cbn [snd].
  exists (<[used_key := "0"]> (<[remaining_key := Itoa remainingMs]> ∅)),
    (Itoa remainingMs), "0"%string.
  split; [apply lookup_insert_eq |].
  split; [rewrite lookup_insert_ne by discriminate; apply lookup_insert_eq |].
  split; [apply StrconvFacts.Atoi_Itoa; assumption |].
  split; [apply lookup_insert_eq | reflexivity].
Qed.

(** For an identity that has a bucket, creation is refused and the store
    is committed as it was. *)
Lemma NewMeter_taken (db : DB) (id : string) (remainingMs : Z) (bucket : gmap string string) :
  db !! id = Some bucket ->
  NewMeter id remainingMs db = ((Some {| ID := id |}, None), db).
Proof.
  intros Hb. unfold NewMeter, Update, CreateBucket.
  destruct (decide (id = "")); [reflexivity |].
  rewrite Hb. reflexivity.
Qed.

(** With nothing left the debit is refused and the transaction rolled back. *)
Lemma RecordMilliseconds_refused (db : DB) (id : string) (remaining used ms : Z) :
  entry db id remaining used -> remaining <= 0 ->
  RecordMilliseconds {| ID := id |} ms db =
    (Some (Errorf "Could not record time - no time left"), db).
Proof.
  intros (bucket & sr & su & Hb & Hsr & Hr & _) Hle.
  unfold RecordMilliseconds, Update, RecordMilliseconds_update. cbn [ID].
  rewrite (Bucket_Some _ _ _ Hb).
  rewrite (read_counter_Some _ _ _ _ _ Hb Hsr), Hr.
  destruct (Z.leb_spec remaining 0); [reflexivity | lia].
Qed.

(** With something left the debit writes both counters and commits. *)
Lemma RecordMilliseconds_debited (db : DB) (id sr su : string)
  (bucket : gmap string string) (remaining used ms : Z) :
  db !! id = Some bucket ->
  bucket !! remaining_key = Some sr -> Atoi sr = Ok remaining ->
  bucket !! used_key = Some su -> Atoi su = Ok used ->
  0 < remaining ->
  RecordMilliseconds {| ID := id |} ms db =
    (None,
     <[id := <[used_key := Itoa (Int.add used ms)]>
               (<[remaining_key := Itoa (Int.sub remaining ms)]> bucket)]> db).
Proof.
  intros Hb Hsr Hr Hsu Hu Hpos.
  unfold RecordMilliseconds, Update, RecordMilliseconds_update. cbn [ID].
  rewrite (Bucket_Some _ _ _ Hb).
  rewrite (read_counter_Some _ _ _ _ _ Hb Hsr), Hr.
  destruct (Z.leb_spec remaining 0); [lia |].
  rewrite (read_counter_Some _ _ _ _ _ Hb Hsu), Hu.
  rewrite (Put_counter _ id remaining_key bucket);
    [| assumption | left; reflexivity | apply IntFacts.wrap_in_range].
  erewrite (Put_counter _ id used_key);
    [| apply lookup_insert_eq | right; reflexivity | apply IntFacts.wrap_in_range].
  rewrite insert_insert_eq. reflexivity.
Qed.

Lemma entry_after_debit (db : DB) (id : string) (bucket : gmap string string) (r u : Z) :
  Int.in_range r -> Int.in_range u ->
  entry (<[id := <[used_key := Itoa u]> (<[remaining_key := Itoa r]> bucket)]> db) id r u.
Proof.
  intros Hr Hu. exists (<[used_key := Itoa u]> (<[remaining_key := Itoa r]> bucket)), (Itoa r), (Itoa u).
  split; [apply lookup_insert_eq |].
  split; [rewrite lookup_insert_ne by discriminate; apply lookup_insert_eq |].
  split; [apply StrconvFacts.Atoi_Itoa; assumption |].
  split; [apply lookup_insert_eq |].
  apply StrconvFacts.Atoi_Itoa; assumption.
Qed.

Lemma RecordMilliseconds_debit (db : DB) (id : string) (remaining used ms : Z) :
  entry db id remaining used -> 0 < remaining ->
  exists db',
    RecordMilliseconds {| ID := id |} ms db = (None, db') /\
    entry db' id (Int.sub remaining ms) (Int.add used ms) /\
    (forall id', id' <> id -> db' !! id' = db !! id').
Proof.
  intros (bucket & sr & su & Hb & Hsr & Hr & Hsu & Hu) Hpos.
  eexists. split; [eapply RecordMilliseconds_debited; eassumption |].
  split; [apply entry_after_debit; apply IntFacts.wrap_in_range |].
  intros id' Hne. apply lookup_insert_ne. congruence.
Qed.

End MeteringFacts.

(** ** The ledger properties of the design document *)

Section Ledger.
Import Strconv Bolt Metering Fixtures.

(** C1. For an identity with a ledger entry, [RecordMilliseconds] returns
    an error and leaves the store (so both counters) as it was when the
    stored remaining balance is at most zero; when it is positive the call
    succeeds and the committed store has the remaining balance decreased
    by [ms] and the used counter increased by [ms] (in Go's [int]
    arithmetic, which is exact as long as the result fits). Whatever the
    call returns, the store afterwards is either unchanged or has both
    counters updated. *)
Theorem RecordMilliseconds_all_or_nothing
  (db : DB) (id : string) (remaining used ms : Z) :
  entry db id remaining used ->
  (remaining <= 0 ->
     exists e, RecordMilliseconds {| ID := id |} ms db = (Some e, db)) /\
  (0 < remaining ->
     exists db',
       RecordMilliseconds {| ID := id |} ms db = (None, db') /\
       entry db' id (Int.sub remaining ms) (Int.add used ms) /\
       (Int.in_range (remaining - ms) -> Int.sub remaining ms = remaining - ms) /\
       (Int.in_range (used + ms) -> Int.add used ms = used + ms)) /\
  (forall e db',
     RecordMilliseconds {| ID := id |} ms db = (e, db') ->
     (e <> None /\ db' = db) \/
     (e = None /\ entry db' id (Int.sub remaining ms) (Int.add used ms))).
Proof.
  intros Hentry. split; [| split].
  - intros Hle. eexists.
    eapply MeteringFacts.RecordMilliseconds_refused; eassumption.
  - intros Hpos.
    destruct (MeteringFacts.RecordMilliseconds_debit db id remaining used ms Hentry Hpos)
      as (db' & Hrun & Hentry' & _).
    exists db'. repeat split; try assumption.
    + apply IntFacts.wrap_exact.
    + apply IntFacts.wrap_exact.
  - intros e db' Hrun.
    destruct (Z.le_gt_cases remaining 0) as [Hle | Hpos].
    + rewrite (MeteringFacts.RecordMilliseconds_refused db id remaining used ms Hentry Hle) in Hrun.
      left. inversion Hrun; subst. split; [discriminate | reflexivity].
    + destruct (MeteringFacts.RecordMilliseconds_debit db id remaining used ms Hentry Hpos)
        as (db1 & Hrun1 & Hentry1 & _).
      rewrite Hrun1 in Hrun. inversion Hrun; subst.
      right. split; [reflexivity | assumption].
Qed.

Lemma one_entry_db_entry : entry one_entry_db "u1" 5 0.
Proof.
  exists (<["MillisecondsUsed" := "0"]> {[ "MillisecondsRemaining" := "5" ]}), "5", "0".
  repeat split; vm_compute; reflexivity.
Qed.

Lemma RecordMilliseconds_all_or_nothing_witness :
  entry one_entry_db "u1" 5 0 /\
  exists db',
    RecordMilliseconds {| ID := "u1" |} 2 one_entry_db = (None, db') /\
    entry db' "u1" (Int.sub 5 2) (Int.add 0 2).
Proof.
  split; [exact one_entry_db_entry |].
  destruct (RecordMilliseconds_all_or_nothing one_entry_db "u1" 5 0 2 one_entry_db_entry)
    as (_ & Hdebit & _).
  destruct (Hdebit ltac:(lia)) as (db' & Hrun & Hentry & _).
  exists db'. split; assumption.
Defined.

(** C2. From a store without ["u1"]: [NewMeter("u1", 1000)] and
    [RecordMilliseconds("u1", 200)] leave 800 remaining and 200 used; a
    following [RecordMilliseconds("u1", 900)] succeeds and leaves -100
    remaining; every further [RecordMilliseconds] for ["u1"] fails and
    changes nothing. *)
Theorem ledger_scenario (db : DB) :
  db !! "u1" = None ->
  exists db1 db2 db3,
    NewMeter "u1" 1000 db = ((Some {| ID := "u1" |}, None), db1) /\
    RecordMilliseconds {| ID := "u1" |} 200 db1 = (None, db2) /\
    Get "u1" "MillisecondsRemaining" db2 = Some "800" /\
    Get "u1" "MillisecondsUsed" db2 = Some "200" /\
    RecordMilliseconds {| ID := "u1" |} 900 db2 = (None, db3) /\
    Get "u1" "MillisecondsRemaining" db3 = Some "-100" /\
    forall ms, exists e, RecordMilliseconds {| ID := "u1" |} ms db3 = (Some e, db3).
Proof.
  intros Hfresh.
  eexists _, _, _.
  split.
  { apply MeteringFacts.NewMeter_fresh;
      [discriminate | assumption | vm_compute; split; discriminate]. }
  split.
  { eapply MeteringFacts.RecordMilliseconds_debited with (remaining := 1000) (used := 0).
    - apply lookup_insert_eq.
    - rewrite lookup_insert_ne by discriminate. apply lookup_insert_eq.
    - vm_compute. reflexivity.
    - apply lookup_insert_eq.
    - vm_compute. reflexivity.
    - lia. }
  split.
  { unfold Get. rewrite lookup_insert_eq.
    rewrite lookup_insert_ne by discriminate. rewrite lookup_insert_eq.
    vm_compute. reflexivity. }
  split.
  { unfold Get. rewrite lookup_insert_eq. rewrite lookup_insert_eq.
    vm_compute. reflexivity. }
  split.
  { eapply MeteringFacts.RecordMilliseconds_debited with (remaining := 800) (used := 200).
    - apply lookup_insert_eq.
    - rewrite lookup_insert_ne by discriminate. apply lookup_insert_eq.
    - vm_compute. reflexivity.
    - apply lookup_insert_eq.
    - vm_compute. reflexivity.
    - lia. }
  split.
  { unfold Get. rewrite lookup_insert_eq.
    rewrite lookup_insert_ne by discriminate. rewrite lookup_insert_eq.
    vm_compute. reflexivity. }
  intros ms. eexists.
  eapply MeteringFacts.RecordMilliseconds_refused with (remaining := -100) (used := 1100); [| lia].
  eexists _, _, _.
  split; [apply lookup_insert_eq |].
  split; [rewrite lookup_insert_ne by discriminate; apply lookup_insert_eq |].
  split; [vm_compute; reflexivity |].
  split; [apply lookup_insert_eq |].
  vm_compute. reflexivity.
Qed.

Lemma ledger_scenario_witness :
  exists db1 db2 db3,
    NewMeter "u1" 1000 ∅ = ((Some {| ID := "u1" |}, None), db1) /\
    RecordMilliseconds {| ID := "u1" |} 200 db1 = (None, db2) /\
    Get "u1" "MillisecondsRemaining" db2 = Some "800" /\
    Get "u1" "MillisecondsUsed" db2 = Some "200" /\
    RecordMilliseconds {| ID := "u1" |} 900 db2 = (None, db3) /\
    Get "u1" "MillisecondsRemaining" db3 = Some "-100" /\
    forall ms, exists e, RecordMilliseconds {| ID := "u1" |} ms db3 = (Some e, db3).
Proof. apply (ledger_scenario ∅). reflexivity. Defined.

(** C3 (the code departs from it). The closure of [MillisecondsRemaining]
    ends in [return fmt.Errorf(...)] on every path, also after the balance
    was read: the method returns 0 and an error for every identity and
    every store, with or without an entry. *)
Theorem MillisecondsRemaining_always_fails (m : Meter) (db : DB) :
  exists e, MillisecondsRemaining m db = (0, Some e).
Proof.
  unfold MillisecondsRemaining, View, MillisecondsRemaining_view.
  destruct (Bucket (ID m) db) as [b |]; [| eexists; reflexivity].
  destruct (Get b "MillisecondsRemaining" db) as [res |]; [| eexists; reflexivity].
  destruct (Atoi res); eexists; reflexivity.
Qed.

(** The same at the entry that [NewMeter("u1", 1000)] creates. *)
Lemma MillisecondsRemaining_fails_after_NewMeter :
  MillisecondsRemaining {| ID := "u1" |} (snd (NewMeter "u1" 1000 ∅)) =
    (0, Some (Errorf "Could not get time remaining")).
Proof. vm_compute. reflexivity. Qed.

(** C10. A second [NewMeter] for an identity that already has an entry
    returns a handle and a nil error and leaves the store, and with it both
    counters of the entry, as it was. *)
Theorem NewMeter_existing_unchanged
  (db : DB) (id : string) (remaining used remainingMs : Z) :
  entry db id remaining used ->
  NewMeter id remainingMs db = ((Some {| ID := id |}, None), db) /\
  entry (snd (NewMeter id remainingMs db)) id remaining used.
Proof.
  intros Hentry.
  assert (Hrun : NewMeter id remainingMs db = ((Some {| ID := id |}, None), db)).
  { destruct Hentry as (bucket & _ & _ & Hb & _).
    eapply MeteringFacts.NewMeter_taken; eassumption. }
  split; [exact Hrun |]. rewrite Hrun. exact Hentry.
Qed.

Lemma NewMeter_existing_unchanged_witness :
  entry one_entry_db "u1" 5 0 /\
  NewMeter "u1" 1000 one_entry_db = ((Some {| ID := "u1" |}, None), one_entry_db).
Proof.
  split; [exact one_entry_db_entry |].
  apply (NewMeter_existing_unchanged one_entry_db "u1" 5 0 1000 one_entry_db_entry).
Defined.

End Ledger.

(** ** Runs of the container package *)

Module ContainerFacts.
Import Docker Http Effects ContainerPkg Traces.

Lemma any_name_is_In (wanted : string) (names : list string) :
  any_name_is wanted names = true <-> In wanted names.
Proof.
  induction names as [| containerName rest IH]; cbn [any_name_is In].
  - split; [discriminate | tauto].
  - destruct (bool_decide_reflect (containerName = wanted)) as [Heq | Hne].
    + split; [intros _; left; exact Heq | reflexivity].
    + rewrite IH. split; [intros H; right; exact H |].
      intros [H | H]; [contradiction | exact H].
Qed.

Section Exec.
Context {W : Type} (h : handler W).

(** A run of [p] followed by [f] is the run of [p], then of [f] on what
    [p] returned; a panic of [p] ends it. *)
Lemma exec_bind {A B : Type} (p : prog A) (f : A -> prog B) : forall w,
  exec h (bind p f) w =
    match exec h p w with
    | (tr, Returned a, w1) =>
        let '(tr', o, w2) := exec h (f a) w1 in ((tr ++ tr')%list, o, w2)
    | (tr, Panicked msg, w1) => (tr, Panicked msg, w1)
    end.
Proof.
  induction p as [a | X c k IH | msg]; intros w; cbn [bind exec].
  - destruct (exec h (f a) w) as [[tr' o] w2]. reflexivity.
  - destruct (h X c w) as [x w1]. rewrite IH.
    destruct (exec h (k x) w1) as [[tr [a | msg]] w2]; [| reflexivity].
    destruct (exec h (f a) w2) as [[tr' o] w3]. reflexivity.
  - reflexivity.
Qed.

(** The loop over the mounts only logs, and always returns the mounts
    and bind strings of its entries. *)
Lemma exec_prepare_mounts (entries : list (string * string)) : forall w,
  exists tr w1,
    exec h (prepare_mounts entries) w =
      (tr, Returned (mounts_of entries, binds_of entries), w1) /\
    forall ev, In ev tr -> is_log ev = true.
Proof.
  induction entries as [| [s d] rest IH]; intros w.
  - exists [], w. split; [reflexivity | intros ev []].
  - cbn [prepare_mounts bind exec log trigger event_of].
    destruct (h unit (Log InfoLevel "Preparing mount") w) as [u w0].
    rewrite exec_bind.
    destruct (IH w0) as (tr & w1 & -> & Hlogs).
    cbn [exec fst snd]. eexists _, _. split; [rewrite app_nil_r; reflexivity |].
    intros ev [<- | Hin]; [reflexivity | apply Hlogs; exact Hin].
Qed.

End Exec.

(** One step of a run: ask the collaborators for their answer to the next
    call, or split on the value a branch depends on. *)
Ltac run_step h H :=
  cbn [bind exec event_of trigger log negb] in H;
  match type of H with
  | context [h ?X ?c ?w] => destruct (h X c w) as [? ?]
  | context [Nat.eqb ?a ?b] => destruct (Nat.eqb_spec a b)
  | context [negb ?b] => is_var b; destruct b
  | context [match ?x with _ => _ end] => is_var x; destruct x
  | context [match List.filter ?f ?l with _ => _ end] =>
      destruct (List.filter f l) eqn:?
  end.

Ltac run_all h H :=
  repeat run_step h H; cbn [bind exec event_of trigger log negb] in H.

(** All the ways an event can be a member of a concrete trace. *)
Ltac split_in H :=
  repeat (rewrite ?in_app_iff in H; cbn [In] in H);
  repeat match type of H with
         | _ \/ _ => destruct H as [H | H]
         | False => destruct H
         end.

(** Finding an event in a concrete trace. *)
Ltac find_in :=
  repeat (progress (rewrite ?in_app_iff; cbn [In]));
  repeat first [left; reflexivity | right].

(** The run of [run] up to the answer to [CreateContainer]. *)
Ltac run_until_created h H :=
  unfold run, List in H;
  cbn [bind exec event_of trigger log] in H;
  match type of H with
  | context [h ?X ?c ?w] => destruct (h X c w) as [? ?]
  end;
  cbn [bind exec event_of trigger log] in H;
  match type of H with
  | context [h ?X ?c ?w] => destruct (h X c w) as [[?e |] ?]
  end;
  cbn [bind exec event_of trigger log] in H;
  [| rewrite exec_bind in H;
     match type of H with
     | context [exec h (prepare_mounts ?l) ?w] =>
         let tr := fresh "tr_mounts" in
         let Heq := fresh "Hmounts" in
         let Hlogs := fresh "Hlogs" in
         destruct (exec_prepare_mounts h l w) as (tr & ? & Heq & Hlogs);
         rewrite Heq in H; clear Heq
     end;
     match type of H with
     | context [prepare_ports ?l] => destruct (prepare_ports l) as [? ?]
     end ].

Section Loader.
Context {W : Type} (h : handler W).
Variable url_Parse : string -> result URL.
Variable http_NewRequest : string -> string -> option Request * option error.
Variable path_Join : string -> string -> string.

Lemma loader_ok_Ret {A : Type} (a : A) : loader_ok h (Ret a).
Proof.
  intros w. unfold trace_of, outcome_of. cbn.
  split; [intros ev [] | intros (ev & [] & _)].
Qed.

Lemma loader_ok_bind {A B : Type} (p : prog A) (f : A -> prog B) :
  loader_ok h p -> (forall a, loader_ok h (f a)) -> loader_ok h (bind p f).
Proof.
  intros Hp Hf w. specialize (Hp w). revert Hp.
  unfold trace_of, outcome_of. rewrite exec_bind.
  destruct (exec h p w) as [[tr [a | msg]] w1]; cbn [fst snd];
    [| intros [Hev Hpanic]; split; [exact Hev |];
       intros Hfail; specialize (Hpanic Hfail); congruence].
  intros [Hev Hpanic]. specialize (Hf a w1). revert Hf.
  unfold trace_of, outcome_of.
  destruct (exec h (f a) w1) as [[tr' o] w2]. cbn [fst snd].
  intros [Hev' Hpanic']. split.
  - intros ev Hin. apply in_app_iff in Hin. destruct Hin; auto.
  - intros (ev & Hin & Hfail). apply in_app_iff in Hin. destruct Hin as [Hin | Hin].
    + assert (Hcontra : Returned a = Panicked "nil pointer dereference") by eauto.
      discriminate Hcontra.
    + eauto.
Qed.

Lemma loader_ok_Vis {A X : Type} (c : call X) (k : X -> prog A) :
  (forall x, is_loader_event (event_of c x) = true) ->
  (forall x, is_failed_get (event_of c x) = false) ->
  (forall x, loader_ok h (k x)) ->
  loader_ok h (Vis c k).
Proof.
  intros Hloader Hget Hk w. unfold trace_of, outcome_of. cbn [exec].
  destruct (h X c w) as [x w1]. specialize (Hk x w1). revert Hk.
  unfold trace_of, outcome_of.
  destruct (exec h (k x) w1) as [[tr o] w2]. cbn [fst snd].
  intros [Hev Hpanic]. split.
  - intros ev [<- | Hin]; auto.
  - intros (ev & [<- | Hin] & Hfail); [rewrite Hget in Hfail; discriminate Hfail | eauto].
Qed.

Lemma loader_ok_log {A : Type} (level : Level) (msg : string) (p : prog A) :
  loader_ok h p -> loader_ok h (bind (log level msg) (fun _ => p)).
Proof.
  intros Hp. cbn [bind log trigger].
  apply loader_ok_Vis; [reflexivity | reflexivity | intros _; exact Hp].
Qed.

(** The goroutine of a URL entry: a GET without a response ends it, and
    the process, in a nil pointer dereference. *)
Lemma loader_ok_fetch_file (dir name : string) (url : URL) :
  loader_ok h (fetch_file http_NewRequest path_Join dir name url).
Proof.
  intros w. unfold trace_of, outcome_of.
  destruct (exec h (fetch_file http_NewRequest path_Join dir name url) w)
    as [[tr out] w'] eqn:Hexec.
  cbn [fst snd]. unfold fetch_file in Hexec.
  destruct (http_NewRequest "GET" (URL_String url)) as [[request |] [err |]];
    destruct (bool_decide (URL_Hostname url = "webstrates.cs.au.dk")
              || bool_decide (URL_Hostname url = "hiraku.cs.au.dk"));
    run_all h Hexec.
  all: injection Hexec as <- <- <-.
  all: split;
    [ intros ev Hev; split_in Hev; subst ev; reflexivity
    | intros (ev & Hev & Hfail); split_in Hev; subst ev;
      try discriminate Hfail; reflexivity ].
Qed.

Lemma loader_ok_run_goroutines (spawned : list (prog unit)) :
  Forall (loader_ok h) spawned -> loader_ok h (run_goroutines spawned).
Proof.
  induction 1 as [| g rest Hg _ IH]; cbn [run_goroutines].
  - apply loader_ok_Ret.
  - apply loader_ok_bind; [exact Hg | intros _; exact IH].
Qed.

Lemma loader_ok_load_entries (dir : string) (entries : list (string * string)) :
  forall spawned,
    Forall (loader_ok h) spawned ->
    loader_ok h (load_entries url_Parse http_NewRequest path_Join dir entries spawned).
Proof.
  induction entries as [| [name content] rest IH]; intros spawned Hspawned;
    cbn [load_entries].
  - apply loader_ok_bind; [apply loader_ok_run_goroutines; exact Hspawned |].
    intros _. apply loader_ok_Ret.
  - assert (Hliteral : loader_ok h
      (bind (log InfoLevel "Writing provided content to tmp dir") (fun _ =>
       bind (trigger (WriteFile (path_Join dir name) content)) (fun err =>
         match err with
         | Some e =>
             bind (log WarnLevel "Could not write file to tmp dir") (fun _ =>
             bind (run_goroutines spawned) (fun _ => Ret (Some e)))
         | None => load_entries url_Parse http_NewRequest path_Join dir rest spawned
         end)))).
    { apply loader_ok_log. cbn [bind trigger].
      apply loader_ok_Vis; [reflexivity | reflexivity |].
      intros [e |]; [| apply IH; exact Hspawned].
      apply loader_ok_log. apply loader_ok_bind.
      - apply loader_ok_run_goroutines. exact Hspawned.
      - intros _. apply loader_ok_Ret. }
    destruct (url_Parse content) as [url | e]; [| exact Hliteral].
    destruct (String.prefix "http" content); [| exact Hliteral].
    apply IH. apply Forall_app. split; [exact Hspawned |].
    constructor; [apply loader_ok_fetch_file | constructor].
Qed.

Lemma loader_ok_LoadFiles (dir : string) (files : gmap string string) :
  loader_ok h (LoadFiles url_Parse http_NewRequest path_Join dir files).
Proof. apply loader_ok_load_entries. constructor. Qed.

End Loader.

(** What [run] passes to [CreateContainer]. *)
Lemma run_create_options {W : Type} (h : handler W) (w : W)
  (client : Client) (name repository tag : string) (ports : gmap Z Z)
  (mounts labels : gmap string string) (restart : bool)
  (opts : CreateContainerOptions) (created : result Container) :
  In (EvCreateContainer opts created)
     (trace_of h (run client name repository tag ports mounts labels restart) w) ->
  Name opts = name /\
  Mounts (Options_Config opts) = mounts_of (map_to_list mounts) /\
  Binds (Options_HostConfig opts) = binds_of (map_to_list mounts).
Proof.
  unfold trace_of.
  destruct (exec h (run client name repository tag ports mounts labels restart) w)
    as [[tr out] w'] eqn:Hexec.
  cbn [fst snd].
  run_until_created h Hexec.
  - injection Hexec as <- <- <-. intros Hin. split_in Hin; discriminate.
  - unfold start_and_inspect in Hexec. run_all h Hexec.
    all: injection Hexec as <- <- <-.
    all: intros Hin; split_in Hin; try discriminate Hin.
    all: try (apply Hlogs in Hin; discriminate Hin).
    all: injection Hin as <- <-; repeat split.
Qed.

(** The mounts literal of [RunDaemonized] has one entry. *)
Lemma daemon_mounts_singleton (hostdir name : string) :
  daemon_mounts hostdir name = {[ hostdir := "/minion" ]}.
Proof. unfold daemon_mounts. rewrite insert_insert_eq. apply insert_empty. Qed.

End ContainerFacts.

(** ** The orchestration properties of the design document *)

Section Orchestrator.
Import Docker Http Effects ContainerPkg Traces Fixtures ContainerFacts.

(** C9. [WithName(n)] matches a descriptor exactly when one of its names
    is the string ["/" ++ n]; a name that only contains [n], or [n] without
    the slash, does not make it match. *)
Theorem WithName_exact (n : string) (d : APIContainers) :
  WithName n d = true <-> In ("/" ++ n) (Names d).
Proof. unfold WithName. apply any_name_is_In. Qed.

(** C7. When a client is made and the listing of the running containers
    gives [cs]: if the containers of [cs] that match are none or several,
    [Kill] returns an error and calls neither kill nor remove; if exactly
    one [c] matches, [Kill] calls kill for [c] and for nothing else, and
    calls remove only if removal was asked for, only for [c], forced, and
    with the volumes exactly when asked; after a successful kill with
    removal asked for, that remove call is made. *)
Theorem Kill_only_the_single_match {W : Type} (h : handler W) (w w1 w2 : W) (m : matcher)
  (removeContainer destroyData : bool) (client : Client) (cs : list APIContainers) :
  h _ NewClientFromEnv w = (Ok client, w1) ->
  h _ (ListContainers false) w1 = (Ok cs, w2) ->
  In (EvListContainers false (Ok cs)) (trace_of h (Kill m removeContainer destroyData) w) /\
  (length (List.filter m cs) <> 1%nat ->
     outcome_of h (Kill m removeContainer destroyData) w =
       Returned (Some (Errorf ("Expected 1 container to match name, got "
                                 ++ Strconv.Itoa (Z.of_nat (length (List.filter m cs)))))) /\
     forall ev, In ev (trace_of h (Kill m removeContainer destroyData) w) ->
                is_kill_or_remove ev = false) /\
  (forall c, List.filter m cs = [c] ->
     (exists r, In (EvKillContainer (ID c) r)
                   (trace_of h (Kill m removeContainer destroyData) w)) /\
     (forall id r, In (EvKillContainer id r)
                      (trace_of h (Kill m removeContainer destroyData) w) -> id = ID c) /\
     (forall id force removeVolumes r,
        In (EvRemoveContainer id force removeVolumes r)
           (trace_of h (Kill m removeContainer destroyData) w) ->
        removeContainer = true /\ id = ID c /\ force = true /\ removeVolumes = destroyData) /\
     (removeContainer = true ->
      In (EvKillContainer (ID c) None) (trace_of h (Kill m removeContainer destroyData) w) ->
      exists r, In (EvRemoveContainer (ID c) true destroyData r)
                   (trace_of h (Kill m removeContainer destroyData) w))).
Proof.
  intros Hclient Hlist. unfold trace_of, outcome_of.
  destruct (exec h (Kill m removeContainer destroyData) w) as [[tr out] w'] eqn:Hexec.
  cbn [fst snd]. unfold Kill, List in Hexec.
  cbn [bind exec event_of trigger log] in Hexec. rewrite Hclient in Hexec.
  cbn [bind exec event_of trigger log] in Hexec. rewrite Hlist in Hexec.
  run_all h Hexec.
  all: injection Hexec as <- <- <-.
  all: try match goal with He : length [] = 1%nat |- _ => discriminate He end.
  all: try match goal with
           | He : length (_ :: ?l) = 1%nat |- _ => destruct l; [clear He | discriminate He]
           end.
  all: split; [find_in |].
  all: split; [intros Hlen | intros c Hc].
  all: try (exfalso; apply Hlen; reflexivity).
  all: try match goal with
           | Hn : length ?l <> 1%nat, Hc : ?l = [_] |- _ =>
               exfalso; apply Hn; rewrite Hc; reflexivity
           end.
  all: try (split; [reflexivity | intros ev Hev; split_in Hev; subst ev; reflexivity]).
  all: injection Hc as <-.
  all: repeat split.
  all: try (eexists; cbn [In]; eauto 10; fail).
  all: intros; repeat match goal with H : In _ _ |- _ => split_in H; try discriminate H end.
  all: try match goal with H : _ = _ |- _ => injection H; intros; subst; reflexivity end.
  all: try reflexivity.
  all: discriminate.
Qed.

Lemma Kill_only_the_single_match_witness :
  (exists r, In (EvKillContainer "c0ffee" r)
               (trace_of (scripted all_fine) (Kill (WithName "golem") false false) tt)) /\
  (exists r, In (EvRemoveContainer "c0ffee" true false r)
               (trace_of (scripted all_fine) (Kill (WithName "golem") true false) tt)).
Proof.
  split.
  - destruct (Kill_only_the_single_match (scripted all_fine) tt tt tt (WithName "golem")
                false false TheClient [golem] eq_refl eq_refl) as (_ & _ & Hone).
    destruct (Hone golem) as (Hkill & _); [reflexivity | exact Hkill].
  - destruct (Kill_only_the_single_match (scripted all_fine) tt tt tt (WithName "golem")
                true false TheClient [golem] eq_refl eq_refl) as (_ & _ & Hone).
    destruct (Hone golem) as (_ & _ & _ & Hremove); [reflexivity |].
    apply Hremove; [reflexivity | vm_compute; auto 10].
Defined.

(** C5. When creation fails in [run]: without restart-recovery the run
    returns the creation error; with it, the run lists all containers
    (also those not running), and when that listing gives [cs], it returns
    the error "Could not create nor find container with name ..." without
    starting anything if the containers of [cs] named exactly [name] are
    not exactly one, and otherwise starts the single match by its
    identifier. *)
Theorem run_creation_failure {W : Type} (h : handler W) (w : W)
  (client : Client) (name repository tag : string) (ports : gmap Z Z)
  (mounts labels : gmap string string) (restart : bool)
  (opts : CreateContainerOptions) (e : error) :
  let p := run client name repository tag ports mounts labels restart in
  In (EvCreateContainer opts (Err e)) (trace_of h p w) ->
  (restart = false -> outcome_of h p w = Returned (None, Some e)) /\
  (restart = true ->
     (exists r, In (EvListContainers true r) (trace_of h p w)) /\
     (forall cs, In (EvListContainers true (Ok cs)) (trace_of h p w) ->
        (length (List.filter (WithName name) cs) <> 1%nat ->
           outcome_of h p w =
             Returned (None, Some (Errorf
               ("Could not create nor find container with name " ++ name))) /\
           forall id r, ~ In (EvStartContainer id r) (trace_of h p w)) /\
        (forall c, List.filter (WithName name) cs = [c] ->
           exists r, In (EvStartContainer (ID c) r) (trace_of h p w)))).
Proof.
  intros p. subst p. unfold trace_of, outcome_of.
  destruct (exec h (run client name repository tag ports mounts labels restart) w)
    as [[tr out] w'] eqn:Hexec.
  cbn [fst snd].
  run_until_created h Hexec.
  - injection Hexec as <- <- <-. intros Hin. split_in Hin; discriminate.
  - unfold start_and_inspect in Hexec. run_all h Hexec.
    all: injection Hexec as <- <- <-.
    all: intros Hin; split_in Hin; try discriminate Hin.
    all: try (apply Hlogs in Hin; discriminate Hin).
    all: injection Hin as <- <-.
    all: split; intros Hrestart; try discriminate Hrestart; try reflexivity.
    all: split; [eexists; find_in |].
    all: intros cs Hcs; split_in Hcs; try discriminate Hcs.
    all: try (apply Hlogs in Hcs; discriminate Hcs).
    all: try injection Hcs as <-.
    all: try match goal with He : length [] = 1%nat |- _ => discriminate He end.
    all: try match goal with
             | He : length (_ :: ?l) = 1%nat |- _ =>
                 destruct l; [clear He | discriminate He]
             end.
    all: split; [intros Hlen | intros c Hc].
    all: try match goal with
             | Hn : length ?l <> 1%nat, Hc : ?l = [_] |- _ =>
                 exfalso; apply Hn; rewrite Hc; reflexivity
             end.
    all: try (split; [reflexivity |];
              intros id r Hs; split_in Hs; try discriminate Hs;
              apply Hlogs in Hs; discriminate Hs).
    all: match goal with
         | Heq : ?l = [_], Hc : ?l = [?c'] |- _ =>
             is_var c'; rewrite Heq in Hc; injection Hc as <-
         end.
    all: eexists; find_in.
Qed.

Lemma run_creation_failure_witness :
  exists r, In (EvStartContainer "c0ffee" r)
               (trace_of (scripted name_taken)
                  (run TheClient "golem" "repo" "latest" ∅ ∅ ∅ true) tt).
Proof.
  destruct (run_creation_failure (scripted name_taken) tt TheClient
              "golem" "repo" "latest" ∅ ∅ ∅ true
              {| Name := "golem";
                 Options_Config :=
                   {| Image := "repo:latest"; Config_Labels := ∅; ExposedPorts := ∅;
                      Mounts := []; AttachStdout := true; AttachStderr := true;
                      AttachStdin := true; OpenStdin := true; Tty := true |};
                 Options_HostConfig := {| PortBindings := ∅; Binds := [] |} |}
              (ExternalError "container already exists")) as [_ Hrecover].
  { vm_compute. auto 10. }
  destruct (Hrecover eq_refl) as [_ Hlisted].
  destruct (Hlisted [golem]) as [_ Hone]; [vm_compute; auto 10 |].
  apply (Hone golem). reflexivity.
Defined.

(** What [run] returns after a successful start and a failed inspection:
    a nil error together with whatever creation returned; the inspection
    error is not returned. *)
Theorem run_inspect_failure_not_fatal {W : Type} (h : handler W) (w : W)
  (client : Client) (name repository tag : string) (ports : gmap Z Z)
  (mounts labels : gmap string string) (restart : bool)
  (id id' : string) (e : error) :
  let p := run client name repository tag ports mounts labels restart in
  In (EvStartContainer id None) (trace_of h p w) ->
  In (EvInspectContainer id' (Err e)) (trace_of h p w) ->
  exists opts created,
    In (EvCreateContainer opts created) (trace_of h p w) /\
    outcome_of h p w =
      Returned (match created with Ok c => Some c | Err _ => None end, None).
Proof.
  intros p. subst p. unfold trace_of, outcome_of.
  destruct (exec h (run client name repository tag ports mounts labels restart) w)
    as [[tr out] w'] eqn:Hexec.
  cbn [fst snd].
  run_until_created h Hexec.
  - injection Hexec as <- <- <-. intros Hin. split_in Hin; discriminate.
  - unfold start_and_inspect in Hexec. run_all h Hexec.
    all: injection Hexec as <- <- <-.
    all: intros Hstart Hinspect.
    all: split_in Hinspect; try discriminate Hinspect.
    all: try (apply Hlogs in Hinspect; discriminate Hinspect).
    all: eexists _, _; split; [find_in | reflexivity].
Qed.

Lemma run_inspect_failure_not_fatal_witness :
  outcome_of (scripted inspect_fails)
    (run TheClient "golem" "repo" "latest" ∅ ∅ ∅ false) tt =
  Returned (Some golem_handle, None).
Proof.
  destruct (run_inspect_failure_not_fatal (scripted inspect_fails) tt TheClient
              "golem" "repo" "latest" ∅ ∅ ∅ false "c0ffee" "c0ffee"
              (ExternalError "no such container"))
    as (opts & created & Hcreated & Hout).
  { vm_compute. auto 10. }
  { vm_compute. auto 10. }
  rewrite Hout. vm_compute in Hcreated.
  repeat destruct Hcreated as [Hcreated | Hcreated]; try discriminate Hcreated;
    [| destruct Hcreated].
  injection Hcreated as _ <-. reflexivity.
Defined.

(** C6 (the code departs from it). When creation failed and the container
    was found by name (restart-recovery), a successful start followed by a
    failed inspection makes [run] return a nil error with a nil handle:
    [container] is still the nil that the failed creation left, although the
    identifier of the container that was started is known. The callers read
    [c.ID] whenever the error is nil. *)
Theorem run_recovered_inspect_failure_nil_handle {W : Type} (h : handler W) (w : W)
  (client : Client) (name repository tag : string) (ports : gmap Z Z)
  (mounts labels : gmap string string) (restart : bool)
  (opts : CreateContainerOptions) (e0 : error) (id id' : string) (e : error) :
  let p := run client name repository tag ports mounts labels restart in
  In (EvCreateContainer opts (Err e0)) (trace_of h p w) ->
  In (EvStartContainer id None) (trace_of h p w) ->
  In (EvInspectContainer id' (Err e)) (trace_of h p w) ->
  outcome_of h p w = Returned (None, None).
Proof.
  intros p. subst p. unfold trace_of, outcome_of.
  destruct (exec h (run client name repository tag ports mounts labels restart) w)
    as [[tr out] w'] eqn:Hexec.
  cbn [fst snd].
  run_until_created h Hexec.
  - injection Hexec as <- <- <-. intros Hin. split_in Hin; discriminate.
  - unfold start_and_inspect in Hexec. run_all h Hexec.
    all: injection Hexec as <- <- <-.
    all: intros Hcreate Hstart Hinspect.
    all: split_in Hcreate; try discriminate Hcreate.
    all: try (apply Hlogs in Hcreate; discriminate Hcreate).
    all: split_in Hinspect; try discriminate Hinspect.
    all: try (apply Hlogs in Hinspect; discriminate Hinspect).
    all: reflexivity.
Qed.

Lemma run_recovered_inspect_failure_nil_handle_witness :
  outcome_of (scripted found_not_inspected)
    (run TheClient "golem" "repo" "latest" ∅ ∅ ∅ true) tt =
  Returned (None, None).
Proof.
  apply (run_recovered_inspect_failure_nil_handle (scripted found_not_inspected) tt
           TheClient "golem" "repo" "latest" ∅ ∅ ∅ true
           {| Name := "golem";
              Options_Config :=
                {| Image := "repo:latest"; Config_Labels := ∅; ExposedPorts := ∅;
                   Mounts := []; AttachStdout := true; AttachStderr := true;
                   AttachStdin := true; OpenStdin := true; Tty := true |};
              Options_HostConfig := {| PortBindings := ∅; Binds := [] |} |}
           (ExternalError "container already exists")
           "c0ffee" "c0ffee" (ExternalError "no such container")).
  - vm_compute. auto 10.
  - vm_compute. auto 20.
  - vm_compute. auto 20.
Defined.

(** The daemonized run of ["golem"] with restart-recovery, on a daemon where
    the name is taken and the container found cannot be inspected after its
    start: a nil handle and a nil error. *)
Lemma RunDaemonized_recovered_nil_handle :
  outcome_of (scripted found_not_inspected)
    (RunDaemonized sample_url_Parse sample_NewRequest sample_Join
       "golem" "repo" "latest" ∅ ∅ ∅ true) tt =
  Returned (None, None).
Proof. vm_compute. reflexivity. Qed.

(** C4 (the code departs from it). The mounts literal of [RunDaemonized]
    writes the key [hostdir] twice, so the map has the single entry
    [hostdir -> "/minion"]: every [CreateContainer] call of a daemonized
    run carries exactly one mount and one bind, both to ["/minion"], and
    none to ["/" ++ name]. *)
Theorem RunDaemonized_mounts_only_minion {W : Type} (h : handler W) (w : W)
  (url_Parse : string -> result URL)
  (http_NewRequest : string -> string -> option Request * option error)
  (path_Join : string -> string -> string)
  (name repository tag : string) (ports : gmap Z Z)
  (files labels : gmap string string) (restart : bool)
  (opts : CreateContainerOptions) (created : result Container) :
  In (EvCreateContainer opts created)
     (trace_of h (RunDaemonized url_Parse http_NewRequest path_Join
                    name repository tag ports files labels restart) w) ->
  exists hostdir,
    Mounts (Options_Config opts) = [ {| Source := hostdir; Destination := "/minion" |} ] /\
    Binds (Options_HostConfig opts) = [ hostdir ++ ":/minion" ].
Proof.
  unfold trace_of at 1.
  destruct (exec h (RunDaemonized url_Parse http_NewRequest path_Join
                      name repository tag ports files labels restart) w)
    as [[tr out] w'] eqn:Hexec.
  cbn [fst snd]. unfold RunDaemonized in Hexec.
  do 3 run_step h Hexec;
    [| run_all h Hexec; injection Hexec as <- <- <-;
       intros Hin; split_in Hin; discriminate Hin].
  do 2 run_step h Hexec;
    [run_all h Hexec; injection Hexec as <- <- <-;
     intros Hin; split_in Hin; discriminate Hin |].
  rewrite exec_bind in Hexec.
  match type of Hexec with
  | context [exec h (LoadFiles _ _ _ ?dir _) ?w0] =>
      pose proof (loader_ok_LoadFiles h url_Parse http_NewRequest path_Join dir files w0)
        as [Hloader _];
      unfold trace_of in Hloader;
      destruct (exec h (LoadFiles url_Parse http_NewRequest path_Join dir files) w0)
        as [[trL [[e |] | msg]] wL]
  end; cbn [fst snd bind exec] in Hexec, Hloader.
  1, 3: injection Hexec as <- <- <-; intros Hin; split_in Hin; try discriminate Hin;
        apply Hloader in Hin; discriminate Hin.
  rewrite exec_bind in Hexec.
  match type of Hexec with
  | context [exec h (run ?c _ _ _ _ ?m _ _) ?w0] =>
      pose proof (run_create_options h w0 c name repository tag ports m labels restart
                    opts created) as Hrun;
      unfold trace_of in Hrun;
      destruct (exec h (run c name repository tag ports m labels restart) w0)
        as [[trR [[c' [e |]] | msg]] wR]
  end; cbn [fst snd bind exec] in Hexec, Hrun.
  all: injection Hexec as <- <- <-; intros Hin; split_in Hin; try discriminate Hin.
  all: try (apply Hloader in Hin; discriminate Hin).
  all: apply Hrun in Hin as (_ & Hm & Hb).
  all: rewrite daemon_mounts_singleton, map_to_list_singleton in Hm, Hb.
  all: eexists; split; [exact Hm | exact Hb].
Qed.

Lemma RunDaemonized_mounts_only_minion_witness :
  exists hostdir,
    [ {| Source := "/mnt/golem"; Destination := "/minion" |} ] =
      [ {| Source := hostdir; Destination := "/minion" |} ] /\
    [ "/mnt/golem:/minion" ] = [ hostdir ++ ":/minion" ].
Proof.
  apply (RunDaemonized_mounts_only_minion (scripted all_fine) tt
           sample_url_Parse sample_NewRequest sample_Join
           "golem" "repo" "latest" ∅ ∅ ∅ false
           {| Name := "golem";
              Options_Config :=
                {| Image := "repo:latest"; Config_Labels := ∅; ExposedPorts := ∅;
                   Mounts := [ {| Source := "/mnt/golem"; Destination := "/minion" |} ];
                   AttachStdout := true; AttachStderr := true;
                   AttachStdin := true; OpenStdin := true; Tty := true |};
              Options_HostConfig :=
                {| PortBindings := ∅; Binds := [ "/mnt/golem:/minion" ] |} |}
           (Ok golem_handle)).
  vm_compute. auto 10.
Defined.

(** The daemonized run of ["golem"] on a daemon where everything works:
    the only bind is to ["/minion"]; ["/golem"] is not mounted. *)
Lemma RunDaemonized_golem_binds :
  forall opts created,
    In (EvCreateContainer opts created)
       (trace_of (scripted all_fine)
          (RunDaemonized sample_url_Parse sample_NewRequest sample_Join
             "golem" "repo" "latest" ∅ ∅ ∅ false) tt) ->
    Binds (Options_HostConfig opts) = [ "/mnt/golem:/minion" ] /\
    ~ In "/golem" (map Destination (Mounts (Options_Config opts))).
Proof.
  intros opts created Hin. vm_compute in Hin.
  repeat destruct Hin as [Hin | Hin]; try discriminate Hin; [| destruct Hin].
  injection Hin as <- _. split; [reflexivity |].
  cbn. intros [H | []]. discriminate H.
Qed.

(** C8 (the code departs from it). Whatever the input map: when a GET of
    [LoadFiles] comes back without a response, the goroutine logs the
    warning and goes on to read the body of the nil response, so the run
    ends in a nil pointer dereference instead of skipping the entry. *)
Theorem LoadFiles_failed_get_panics {W : Type} (h : handler W) (w : W)
  (url_Parse : string -> result URL)
  (http_NewRequest : string -> string -> option Request * option error)
  (path_Join : string -> string -> string)
  (dir : string) (files : gmap string string)
  (request : Request) (err : option error) :
  In (EvHttpDo request (None, err))
     (trace_of h (LoadFiles url_Parse http_NewRequest path_Join dir files) w) ->
  outcome_of h (LoadFiles url_Parse http_NewRequest path_Join dir files) w =
    Panicked "nil pointer dereference".
Proof.
  intros Hin.
  apply (loader_ok_LoadFiles h url_Parse http_NewRequest path_Join dir files w).
  eexists. split; [exact Hin | reflexivity].
Qed.

(** The two files of the design document on a network where the GET
    fails: [a.txt] is written, the failure is logged, and the process
    panics; [LoadFiles] does not return. *)
Lemma LoadFiles_two_files_get_fails :
  exec (scripted get_fails)
    (LoadFiles sample_url_Parse sample_NewRequest sample_Join "/mnt/golem" two_files) tt =
  ([ EvLog InfoLevel "Writing provided content to tmp dir";
     EvWriteFile "/mnt/golem/a.txt" "hello" None;
     EvHttpDo {| Request_Method := "GET"; Request_URL := "http://example/x";
                 Request_BasicAuth := None |}
              (None, Some (ExternalError "connection refused"));
     EvLog WarnLevel "Could not GET content to store in container" ],
   Panicked "nil pointer dereference", tt).
Proof. vm_compute. reflexivity. Qed.

Lemma LoadFiles_failed_get_panics_witness :
  outcome_of (scripted get_fails)
    (LoadFiles sample_url_Parse sample_NewRequest sample_Join "/mnt/golem" two_files) tt =
  Panicked "nil pointer dereference".
Proof.
  apply (LoadFiles_failed_get_panics (scripted get_fails) tt
           sample_url_Parse sample_NewRequest sample_Join "/mnt/golem" two_files
           {| Request_Method := "GET"; Request_URL := "http://example/x";
              Request_BasicAuth := None |}
           (Some (ExternalError "connection refused"))).
  vm_compute. auto 10.
Defined.

End Orchestrator.

(** * Further properties *)

(** ** The ledger on arbitrary stores *)

Module LedgerFacts.
Import Strconv Bolt Metering LedgerOps MeteringFacts.

Lemma Put_frame (b key value : string) (tx : Tx) (id' : string) :
  id' <> b -> snd (Put b key value tx) !! id' = tx !! id'.
Proof.
  intros Hne. unfold Put.
  repeat (case_decide; [reflexivity |]).
  destruct (tx !! b); [| reflexivity].
  cbn [snd]. apply lookup_insert_ne. congruence.
Qed.

Lemma entry_ext (db db' : DB) (id : string) (remaining used : Z) :
  db' !! id = db !! id -> entry db id remaining used -> entry db' id remaining used.
Proof.
  intros Heq (bucket & sr & su & Hb & Hrest).
  exists bucket, sr, su. rewrite Heq. split; assumption.
Qed.

Lemma entry_functional (db : DB) (id : string) (r u r' u' : Z) :
  entry db id r u -> entry db id r' u' -> r = r' /\ u = u'.
Proof.
  intros (b & sr & su & Hb & Hsr & Hr & Hsu & Hu)
         (b' & sr' & su' & Hb' & Hsr' & Hr' & Hsu' & Hu').
  rewrite Hb in Hb'. injection Hb' as <-.
  rewrite Hsr in Hsr'. injection Hsr' as <-.
  rewrite Hsu in Hsu'. injection Hsu' as <-.
  split; congruence.
Qed.

(** [NewMeter] on any store: the result, and the store afterwards. *)
Lemma NewMeter_result (db : DB) (id : string) (remainingMs : Z) :
  fst (NewMeter id remainingMs db) = (Some {| ID := id |}, None).
Proof.
  unfold NewMeter, Update.
  destruct (CreateBucket id db) as [[b | e] tx1]; [| reflexivity].
  destruct (Put b "MillisecondsRemaining" (Itoa remainingMs) tx1) as [e1 tx2].
  destruct (Put b "MillisecondsUsed" "0" tx2) as [e2 tx3]. reflexivity.
Qed.

Lemma NewMeter_frame (db : DB) (id : string) (remainingMs : Z) (id' : string) :
  id' <> id \/ is_Some (db !! id') ->
  snd (NewMeter id remainingMs db) !! id' = db !! id'.
Proof.
  intros Hother. unfold NewMeter, Update, CreateBucket.
  destruct (decide (id = "")) as [Hempty | Hid]; [reflexivity |].
  destruct (db !! id) as [bucket |] eqn:Hb; [reflexivity |].
  assert (Hne : id' <> id).
  { destruct Hother as [Hne | [x Hx]]; [exact Hne | congruence]. }
  pose proof (Put_frame id "MillisecondsRemaining" (Itoa remainingMs)
                (<[id := ∅]> db) id' Hne) as H1.
  destruct (Put id "MillisecondsRemaining" (Itoa remainingMs) (<[id := ∅]> db))
    as [e1 tx2]. cbn [snd] in H1.
  pose proof (Put_frame id "MillisecondsUsed" "0" tx2 id' Hne) as H2.
  destruct (Put id "MillisecondsUsed" "0" tx2) as [e2 tx3]. cbn [snd] in *.
  rewrite H2, H1. apply lookup_insert_ne. congruence.
Qed.

Lemma NewMeter_empty (db : DB) (remainingMs : Z) :
  NewMeter "" remainingMs db = ((Some {| ID := "" |}, None), db).
Proof. reflexivity. Qed.

(** [RecordMilliseconds] on any store touches no other bucket. *)
Lemma RecordMilliseconds_frame (db : DB) (m : Meter) (ms : Z) (id' : string) :
  id' <> ID m -> snd (RecordMilliseconds m ms db) !! id' = db !! id'.
Proof.
  intros Hne. unfold RecordMilliseconds, Update.
  destruct (RecordMilliseconds_update m ms db) as [[e |] tx'] eqn:Hrun; [reflexivity |].
  cbn [snd]. unfold RecordMilliseconds_update in Hrun.
  assert (Hb : forall b, Bucket (ID m) db = Some b -> b = ID m).
  { unfold Bucket. intros b. destruct (db !! ID m); congruence. }
  destruct (Bucket (ID m) db) as [b |]; [| discriminate Hrun].
  specialize (Hb b eq_refl). subst b.
  destruct (read_counter (ID m) "MillisecondsRemaining" db) as [remaining | e];
    [| discriminate Hrun].
  destruct (remaining <=? 0); [discriminate Hrun |].
  destruct (read_counter (ID m) "MillisecondsUsed" db) as [used | e];
    [| discriminate Hrun].
  pose proof (Put_frame (ID m) "MillisecondsRemaining" (Itoa (Int.sub remaining ms))
                db id' Hne) as H1.
  destruct (Put (ID m) "MillisecondsRemaining" (Itoa (Int.sub remaining ms)) db)
    as [[e1 |] tx1]; [discriminate Hrun |]. cbn [snd] in H1.
  pose proof (Put_frame (ID m) "MillisecondsUsed" (Itoa (Int.add used ms))
                tx1 id' Hne) as H2.
  destruct (Put (ID m) "MillisecondsUsed" (Itoa (Int.add used ms)) tx1)
    as [[e2 |] tx2]; [discriminate Hrun |]. cbn [snd] in H2.
  injection Hrun as <-. rewrite H2, H1. reflexivity.
Qed.

(** An identity without a bucket cannot be debited. *)
Lemma RecordMilliseconds_unknown (db : DB) (id : string) (ms : Z) :
  db !! id = None ->
  RecordMilliseconds {| ID := id |} ms db =
    (Some (Errorf "Could not update for given id"), db).
Proof.
  intros Hnone. unfold RecordMilliseconds, Update, RecordMilliseconds_update, Bucket.
  cbn [ID]. rewrite Hnone. reflexivity.
Qed.

(** Wrapped sums: what a debit takes from one counter it adds to the other. *)
Lemma wrap_sum_conserved (r u ms : Z) :
  Int.wrap (Int.sub r ms + Int.add u ms) = Int.wrap (r + u).
Proof.
  unfold Int.sub, Int.add, Int.wrap. f_equal.
  rewrite (Z.mod_eq (r - ms + 2 ^ 63) (2 ^ 64)), (Z.mod_eq (u + ms + 2 ^ 63) (2 ^ 64)) by lia.
  set (qa := (r - ms + 2 ^ 63) / 2 ^ 64). set (qb := (u + ms + 2 ^ 63) / 2 ^ 64).
  replace (r - ms + 2 ^ 63 - 2 ^ 64 * qa - 2 ^ 63 +
           (u + ms + 2 ^ 63 - 2 ^ 64 * qb - 2 ^ 63) + 2 ^ 63)
    with (r + u + 2 ^ 63 + (- qa - qb) * 2 ^ 64) by lia.
  apply Z_mod_plus_full.
Qed.

(** What [Atoi] accepts is a value of type [int]. *)
Lemma Atoi_in_range (s : string) (z : Z) : Atoi s = Ok z -> Int.in_range z.
Proof.
  unfold Atoi. intros Hatoi.
  destruct s as [| c rest]; [discriminate Hatoi |].
  destruct (if (Ascii.eqb c "-" || Ascii.eqb c "+")%bool then rest else String c rest);
    [discriminate Hatoi |].
  destruct (parse_digits 0 _) as [n |]; [| discriminate Hatoi].
  destruct (Int.in_rangeb _) eqn:Hb; [| discriminate Hatoi].
  injection Hatoi as <-. unfold Int.in_rangeb in Hb.
  apply andb_prop in Hb as [Hlo Hhi]. apply Z.leb_le in Hlo, Hhi.
  split; assumption.
Qed.

Lemma entry_in_range (db : DB) (id : string) (r u : Z) :
  entry db id r u -> Int.in_range r /\ Int.in_range u.
Proof.
  intros (b & sr & su & _ & _ & Hr & _ & Hu).
  split; eapply Atoi_in_range; eassumption.
Qed.

(** One call and the entry of an identity: the entry stays, the wrapped sum
    of its counters stays, and an exhausted entry stays as it is. *)
Lemma apply_op_entry (db : DB) (o : op) (id : string) (r u : Z) :
  entry db id r u ->
  exists r' u',
    entry (apply_op db o) id r' u' /\
    Int.wrap (r' + u') = Int.wrap (r + u) /\
    (r <= 0 -> r' = r /\ u' = u).
Proof.
  intros Hentry.
  assert (Hsome : is_Some (db !! id)).
  { destruct Hentry as (b & _ & _ & Hb & _). eexists. exact Hb. }
  destruct o as [id0 amount | id0 ms]; cbn [apply_op].
  - exists r, u. split; [| split; [reflexivity | tauto]].
    eapply entry_ext; [| exact Hentry].
    apply NewMeter_frame. right. exact Hsome.
  - destruct (decide (id0 = id)) as [-> | Hne].
    + destruct (Z.le_gt_cases r 0) as [Hle | Hpos].
      * rewrite (RecordMilliseconds_refused db id r u ms Hentry Hle). cbn [snd].
        exists r, u. split; [exact Hentry | split; [reflexivity | tauto]].
      * destruct (RecordMilliseconds_debit db id r u ms Hentry Hpos)
          as (db' & Hrun & Hentry' & _).
        rewrite Hrun. cbn [snd].
        exists (Int.sub r ms), (Int.add u ms).
        split; [exact Hentry' | split; [apply wrap_sum_conserved | lia]].
    + exists r, u. split; [| split; [reflexivity | tauto]].
      eapply entry_ext; [| exact Hentry].
      apply (RecordMilliseconds_frame db {| ID := id0 |}). cbn [ID]. congruence.
Qed.

Lemma apply_op_well_formed (db : DB) (o : op) :
  well_formed db -> op_in_range o -> well_formed (apply_op db o).
Proof.
  intros Hwf Hrange id' bucket' Hlookup.
  destruct (db !! id') as [bucket |] eqn:Hold.
  - destruct (Hwf id' bucket Hold) as (r & u & Hentry).
    destruct (apply_op_entry db o id' r u Hentry) as (r' & u' & Hentry' & _).
    exists r', u'. exact Hentry'.
  - destruct o as [id0 amount | id0 ms]; cbn [apply_op op_in_range] in *.
    + destruct (decide (id' = id0)) as [-> | Hne].
      * destruct (decide (id0 = "")) as [-> | Hid].
        { rewrite NewMeter_empty in Hlookup. cbn [snd] in Hlookup. congruence. }
        exists amount, 0. apply NewMeter_fresh_entry; assumption.
      * rewrite NewMeter_frame in Hlookup by (left; exact Hne). congruence.
    + destruct (decide (id' = id0)) as [-> | Hne].
      * rewrite (RecordMilliseconds_unknown db id0 ms Hold) in Hlookup.
        cbn [snd] in Hlookup. congruence.
      * rewrite (RecordMilliseconds_frame db {| ID := id0 |}) in Hlookup
          by (cbn [ID]; exact Hne).
        congruence.
Qed.

End LedgerFacts.

(** ** Further properties of the ledger *)

Section LedgerExtras.
Import Strconv Bolt Metering LedgerOps MeteringFacts LedgerFacts Fixtures LedgerFixtures.

(** X1. [NewMeter] for a non-empty identity without a bucket returns a
    handle and no error; afterwards the identity has an entry with the given
    balance and nothing used, and every other bucket is as before. *)
Theorem NewMeter_initialises (db : DB) (id : string) (remainingMs : Z) :
  id <> "" -> db !! id = None -> Int.in_range remainingMs ->
  fst (NewMeter id remainingMs db) = (Some {| ID := id |}, None) /\
  entry (snd (NewMeter id remainingMs db)) id remainingMs 0 /\
  forall id', id' <> id -> snd (NewMeter id remainingMs db) !! id' = db !! id'.
Proof.
  intros Hid Hfresh Hr. split; [apply NewMeter_result |].
  split; [apply NewMeter_fresh_entry; assumption |].
  intros id' Hne. apply NewMeter_frame. left. exact Hne.
Qed.

Lemma NewMeter_initialises_witness :
  entry (snd (NewMeter "u2" 250 one_entry_db)) "u2" 250 0.
Proof.
  apply (NewMeter_initialises one_entry_db "u2" 250);
    [discriminate | reflexivity | vm_compute; split; discriminate].
Defined.

(** X2. [NewMeter] for the empty identity creates nothing (bolt refuses a
    bucket without a name) and still returns a handle and no error; every
    debit through that handle then fails. *)
Theorem NewMeter_empty_identity (db : DB) (remainingMs : Z) :
  db !! "" = None ->
  NewMeter "" remainingMs db = ((Some {| ID := "" |}, None), db) /\
  forall ms,
    RecordMilliseconds {| ID := "" |} ms db =
      (Some (Errorf "Could not update for given id"), db).
Proof.
  intros Hnone. split; [reflexivity |].
  intros ms. apply RecordMilliseconds_unknown. exact Hnone.
Qed.

Lemma NewMeter_empty_identity_witness :
  NewMeter "" 1000 one_entry_db = ((Some {| ID := "" |}, None), one_entry_db).
Proof. apply (NewMeter_empty_identity one_entry_db 1000). reflexivity. Defined.

(** X3. On a store in which every bucket holds two readable counters,
    [RecordMilliseconds] returns nil exactly when the identity has an entry
    with a positive balance. Its two refusals can be told apart by their
    message: "Could not update for given id" when the identity has no
    bucket, "Could not record time - no time left" when the balance is zero
    or less; in both the store is left as it was. *)
Theorem RecordMilliseconds_succeeds_iff (db : DB) (id : string) (ms : Z) :
  well_formed db ->
  (fst (RecordMilliseconds {| ID := id |} ms db) = None <->
   exists remaining used, entry db id remaining used /\ 0 < remaining) /\
  (db !! id = None ->
   RecordMilliseconds {| ID := id |} ms db =
     (Some (Errorf "Could not update for given id"), db)) /\
  (forall remaining used, entry db id remaining used -> remaining <= 0 ->
   RecordMilliseconds {| ID := id |} ms db =
     (Some (Errorf "Could not record time - no time left"), db)).
Proof.
  intros Hwf. split; [| split].
  - split.
    + intros Hnil. destruct (db !! id) as [bucket |] eqn:Hb.
      * destruct (Hwf id bucket Hb) as (r & u & Hentry).
        destruct (Z.le_gt_cases r 0) as [Hle | Hpos].
        -- rewrite (RecordMilliseconds_refused db id r u ms Hentry Hle) in Hnil.
           discriminate Hnil.
        -- exists r, u. split; [exact Hentry | lia].
      * rewrite (RecordMilliseconds_unknown db id ms Hb) in Hnil. discriminate Hnil.
    + intros (r & u & Hentry & Hpos).
      destruct (RecordMilliseconds_debit db id r u ms Hentry Hpos) as (db' & -> & _).
      reflexivity.
  - apply RecordMilliseconds_unknown.
  - intros r u Hentry Hle. apply (RecordMilliseconds_refused db id r u ms Hentry Hle).
Qed.

Lemma one_entry_db_well_formed : well_formed one_entry_db.
Proof.
  intros id bucket Hlookup. unfold one_entry_db in Hlookup.
  apply lookup_singleton_Some in Hlookup as [<- _].
  exists 5, 0.
  exists (<["MillisecondsUsed" := "0"]> {[ "MillisecondsRemaining" := "5" ]}), "5", "0".
  repeat split; vm_compute; reflexivity.
Qed.

Lemma RecordMilliseconds_succeeds_iff_witness :
  fst (RecordMilliseconds {| ID := "u1" |} 2 one_entry_db) = None /\
  RecordMilliseconds {| ID := "nobody" |} 2 one_entry_db =
    (Some (Errorf "Could not update for given id"), one_entry_db) /\
  exists remaining used, entry one_entry_db "u1" remaining used /\ 0 < remaining.
Proof.
  split; [| split].
  - destruct (RecordMilliseconds_succeeds_iff one_entry_db "u1" 2 one_entry_db_well_formed)
      as (Hiff & _).
    apply Hiff. exists 5, 0. split; [| lia].
    exists (<["MillisecondsUsed" := "0"]> {[ "MillisecondsRemaining" := "5" ]}), "5", "0".
    repeat split; vm_compute; reflexivity.
  - destruct (RecordMilliseconds_succeeds_iff one_entry_db "nobody" 2
                one_entry_db_well_formed) as (_ & Hunknown & _).
    apply Hunknown. reflexivity.
  - destruct (RecordMilliseconds_succeeds_iff one_entry_db "u1" 2 one_entry_db_well_formed)
      as (Hiff & _).
    apply Hiff. vm_compute. reflexivity.
Defined.

(** X4. Neither [NewMeter] nor [RecordMilliseconds] changes the bucket of
    another identity, on any store and whatever they return; [NewMeter]
    does not change an existing bucket of its own identity either. *)
Theorem ledger_calls_touch_one_bucket (db : DB) (id id' : string) (amount : Z) :
  id' <> id ->
  snd (NewMeter id amount db) !! id' = db !! id' /\
  snd (RecordMilliseconds {| ID := id |} amount db) !! id' = db !! id' /\
  (is_Some (db !! id) -> snd (NewMeter id amount db) !! id = db !! id).
Proof.
  intros Hne. split; [apply NewMeter_frame; left; exact Hne |].
  split; [apply RecordMilliseconds_frame; exact Hne |].
  intros Hsome. apply NewMeter_frame. right. exact Hsome.
Qed.

Lemma ledger_calls_touch_one_bucket_witness :
  snd (RecordMilliseconds {| ID := "u2" |} 3 one_entry_db) !! "u1" = one_entry_db !! "u1".
Proof.
  apply (ledger_calls_touch_one_bucket one_entry_db "u2" "u1" 3). discriminate.
Defined.

(** X5. In a bucket that exists but has no [MillisecondsRemaining] key the
    balance counts as zero: every debit is refused with "no time left" and
    the store is left as it was. *)
Theorem RecordMilliseconds_missing_balance
  (db : DB) (id : string) (bucket : gmap string string) (ms : Z) :
  db !! id = Some bucket -> bucket !! "MillisecondsRemaining" = None ->
  RecordMilliseconds {| ID := id |} ms db =
    (Some (Errorf "Could not record time - no time left"), db).
Proof.
  intros Hb Hnone.
  unfold RecordMilliseconds, Update, RecordMilliseconds_update. cbn [ID].
  rewrite (Bucket_Some _ _ _ Hb). unfold read_counter, Get. rewrite Hb, Hnone.
  reflexivity.
Qed.

Lemma RecordMilliseconds_missing_balance_witness :
  RecordMilliseconds {| ID := "u1" |} 1 no_balance_db =
    (Some (Errorf "Could not record time - no time left"), no_balance_db).
Proof.
  apply (RecordMilliseconds_missing_balance no_balance_db "u1" {[ "MillisecondsUsed" := "7" ]} 1);
    reflexivity.
Defined.

(** X6. A successful debit of a non-negative amount is exact (no wrap
    around): the balance goes down by [ms], the used counter up by [ms] when
    that fits, and the new balance is above [- ms]; so the balance can fall
    below zero only by less than the last debit. *)
Theorem debit_overshoot_bounded (db : DB) (id : string) (remaining used ms : Z) :
  entry db id remaining used -> 0 < remaining -> 0 <= ms -> Int.in_range ms ->
  exists used',
    fst (RecordMilliseconds {| ID := id |} ms db) = None /\
    entry (snd (RecordMilliseconds {| ID := id |} ms db)) id (remaining - ms) used' /\
    - ms < remaining - ms <= remaining /\
    (Int.in_range (used + ms) -> used' = used + ms).
Proof.
  intros Hentry Hpos Hms Hrange.
  destruct (RecordMilliseconds_debit db id remaining used ms Hentry Hpos)
    as (db' & Hrun & Hentry' & _).
  destruct (entry_in_range db id remaining used Hentry) as [Hr _].
  exists (Int.add used ms). rewrite Hrun. cbn [fst snd].
  assert (Hexact : Int.sub remaining ms = remaining - ms).
  { apply IntFacts.wrap_exact. unfold Int.in_range, Int.min_int, Int.max_int in *. lia. }
  rewrite Hexact in Hentry'.
  split; [reflexivity |]. split; [exact Hentry' |]. split; [lia |].
  apply IntFacts.wrap_exact.
Qed.

Lemma debit_overshoot_bounded_witness :
  exists used',
    entry (snd (RecordMilliseconds {| ID := "u1" |} 9 one_entry_db)) "u1" (5 - 9) used'.
Proof.
  destruct (debit_overshoot_bounded one_entry_db "u1" 5 0 9)
    as (used' & _ & Hentry & _).
  - exists (<["MillisecondsUsed" := "0"]> {[ "MillisecondsRemaining" := "5" ]}), "5", "0".
    repeat split; vm_compute; reflexivity.
  - lia.
  - lia.
  - vm_compute. split; discriminate.
  - exists used'. exact Hentry.
Defined.

(** X7. Whatever calls follow, on whatever identities and with whatever
    amounts, an identity that has an entry keeps one, and the sum of its two
    counters (remaining plus used, in 64-bit arithmetic) never changes:
    what is debited from the balance is exactly what is added to the usage. *)
Theorem total_conserved_by_calls (ops : list op) :
  forall (db : DB) (id : string) (remaining used : Z),
    entry db id remaining used ->
    exists remaining' used',
      entry (apply_ops ops db) id remaining' used' /\
      Int.wrap (remaining' + used') = Int.wrap (remaining + used).
Proof.
  unfold apply_ops.
  induction ops as [| o ops IH]; intros db id remaining used Hentry; cbn [fold_left].
  - exists remaining, used. split; [exact Hentry | reflexivity].
  - destruct (apply_op_entry db o id remaining used Hentry) as (r1 & u1 & H1 & Hsum & _).
    destruct (IH _ id r1 u1 H1) as (r2 & u2 & H2 & Hsum2).
    exists r2, u2. split; [exact H2 | congruence].
Qed.

Lemma total_conserved_by_calls_witness :
  exists remaining' used',
    entry (apply_ops [OpRecordMilliseconds "u1" 2; OpNewMeter "u1" 77;
                      OpRecordMilliseconds "u1" 9] one_entry_db) "u1" remaining' used' /\
    Int.wrap (remaining' + used') = Int.wrap (5 + 0).
Proof.
  apply (total_conserved_by_calls _ one_entry_db "u1" 5 0).
  exists (<["MillisecondsUsed" := "0"]> {[ "MillisecondsRemaining" := "5" ]}), "5", "0".
  repeat split; vm_compute; reflexivity.
Defined.

(** X8. An entry whose balance is zero or less is final: no sequence of
    [NewMeter] and [RecordMilliseconds] calls, for this or any other
    identity, changes its two counters. The package offers no way to top up. *)
Theorem exhausted_entry_is_final (ops : list op) :
  forall (db : DB) (id : string) (remaining used : Z),
    entry db id remaining used -> remaining <= 0 ->
    entry (apply_ops ops db) id remaining used.
Proof.
  unfold apply_ops.
  induction ops as [| o ops IH]; intros db id remaining used Hentry Hle; cbn [fold_left].
  - exact Hentry.
  - destruct (apply_op_entry db o id remaining used Hentry) as (r1 & u1 & H1 & _ & Hsame).
    destruct (Hsame Hle) as [-> ->]. apply IH; assumption.
Qed.

Lemma exhausted_entry_is_final_witness :
  entry (apply_ops [OpNewMeter "u1" 5000; OpRecordMilliseconds "u1" (-300);
                    OpNewMeter "u2" 10] overdrawn_db) "u1" (-100) 1100.
Proof.
  apply (exhausted_entry_is_final _ overdrawn_db "u1" (-100) 1100); [| lia].
  exists (<["MillisecondsUsed" := "1100"]> {[ "MillisecondsRemaining" := "-100" ]}),
    "-100", "1100".
  repeat split; vm_compute; reflexivity.
Defined.

(** X9. If every bucket of the store holds two counters that read back as
    integers, this is still so after any sequence of [NewMeter] and
    [RecordMilliseconds] calls with [int] amounts: the package never writes
    a counter it cannot read, so the [Atoi] error paths are not reached on a
    store that only this package has written. *)
Theorem well_formed_preserved (ops : list op) :
  forall db : DB,
    well_formed db -> Forall op_in_range ops -> well_formed (apply_ops ops db).
Proof.
  unfold apply_ops.
  induction ops as [| o ops IH]; intros db Hwf Hrange; cbn [fold_left].
  - exact Hwf.
  - inversion Hrange as [| ? ? Ho Hops]; subst.
    apply IH; [apply apply_op_well_formed; assumption | exact Hops].
Qed.

Lemma well_formed_preserved_witness :
  well_formed (apply_ops [OpNewMeter "u1" 1000; OpRecordMilliseconds "u1" 200] ∅).
Proof.
  apply (well_formed_preserved _ ∅).
  - intros id bucket Hlookup. rewrite lookup_empty in Hlookup. discriminate Hlookup.
  - repeat constructor; vm_compute; discriminate.
Defined.

(** X10. [Inspect] never returns a status: it passes on the error that
    [MillisecondsRemaining] returns on every path. *)
Theorem Inspect_never_reports (m : Meter) (db : DB) :
  exists e, Inspect m db = (None, Some e).
Proof.
  unfold Inspect, MillisecondsRemaining, View, MillisecondsRemaining_view.
  destruct (Bucket (ID m) db) as [b |]; [| eexists; reflexivity].
  destruct (Get b "MillisecondsRemaining" db) as [res |]; [| eexists; reflexivity].
  destruct (Atoi res); eexists; reflexivity.
Qed.

End LedgerExtras.

(** ** More about runs of the container package *)

Module ContainerMore.
Import Docker Http Effects ContainerPkg Traces MoreTraces ContainerFacts.

(** Finding an event in a trace made of several parts. *)
Ltac search_in :=
  first [reflexivity | assumption | left; search_in | right; search_in].

Ltac locate :=
  repeat (progress (rewrite ?in_app_iff; cbn [In app]));
  search_in.

(** *** The loop over the ports *)

Lemma prepare_ports_invariant (entries : list (Z * Z)) :
  ports_invariant entries (prepare_ports entries).
Proof.
  unfold prepare_ports, ports_invariant.
  induction entries as [| [outside inside] entries IH] using rev_ind.
  - cbn [foldl fst snd]. split; [intros ? ? [] |]. split.
    + intros p. rewrite lookup_empty. split; [set_solver | intros [x Hx]; discriminate Hx].
    + intros p bs Hp. rewrite lookup_empty in Hp. discriminate Hp.
  - rewrite foldl_snoc.
    destruct IH as (Hexposed & Hdom & Hbound).
    set (acc := foldl _ _ entries) in *. cbn [fst snd].
    set (key := Strconv.Itoa inside ++ "/tcp").
    split; [| split].
    + intros o i Hin. apply in_app_iff in Hin. destruct Hin as [Hin | [Heq | []]].
      * apply elem_of_union_r. eapply Hexposed. exact Hin.
      * injection Heq as <- <-. apply elem_of_union_l, elem_of_singleton. reflexivity.
    + intros p. rewrite elem_of_union, elem_of_singleton, Hdom.
      destruct (decide (key = p)) as [<- | Hne].
      * rewrite lookup_insert_eq. split; [eauto | left; reflexivity].
      * rewrite lookup_insert_ne by exact Hne. split; [| tauto].
        intros [Heq | H]; [congruence | exact H].
    + intros p bs Hp. destruct (decide (key = p)) as [<- | Hne].
      * rewrite lookup_insert_eq in Hp. injection Hp as <-.
        exists outside, inside. split; [apply in_app_iff; right; left; reflexivity |].
        split; reflexivity.
      * rewrite lookup_insert_ne in Hp by exact Hne.
        destruct (Hbound p bs Hp) as (o & i & Hin & Hkey & Hbs).
        exists o, i. split; [apply in_app_iff; left; exact Hin | split; assumption].
Qed.

Lemma In_map_to_list {K A : Type} `{Countable K} (m : gmap K A) (k : K) (a : A) :
  In (k, a) (map_to_list m) <-> m !! k = Some a.
Proof. rewrite <- list_elem_of_In. apply elem_of_map_to_list. Qed.

(** *** The request of [run] to create the container *)

(** As [run_until_created], keeping what the loop over the ports computed. *)
Ltac run_until_created_ports h H Hports :=
  unfold run, List in H;
  cbn [bind exec event_of trigger log] in H;
  match type of H with
  | context [h ?X ?c ?w] => destruct (h X c w) as [? ?]
  end;
  cbn [bind exec event_of trigger log] in H;
  match type of H with
  | context [h ?X ?c ?w] => destruct (h X c w) as [[?e |] ?]
  end;
  cbn [bind exec event_of trigger log] in H;
  [| rewrite exec_bind in H;
     match type of H with
     | context [exec h (prepare_mounts ?l) ?w] =>
         let tr := fresh "tr_mounts" in
         let Heq := fresh "Hmounts" in
         let Hlogs := fresh "Hlogs" in
         destruct (exec_prepare_mounts h l w) as (tr & ? & Heq & Hlogs);
         rewrite Heq in H; clear Heq
     end;
     match type of H with
     | context [prepare_ports ?l] => destruct (prepare_ports l) as [? ?] eqn:Hports
     end ].

Lemma run_create_request {W : Type} (h : handler W) (w : W)
  (client : Client) (name repository tag : string) (ports : gmap Z Z)
  (mounts labels : gmap string string) (restart : bool)
  (opts : CreateContainerOptions) (created : result Container) :
  In (EvCreateContainer opts created)
     (trace_of h (run client name repository tag ports mounts labels restart) w) ->
  opts =
    {| Name := name;
       Options_Config :=
         {| Image := repository ++ ":" ++ tag;
            Config_Labels := labels;
            ExposedPorts := fst (prepare_ports (map_to_list ports));
            Mounts := mounts_of (map_to_list mounts);
            AttachStdout := true;
            AttachStderr := true;
            AttachStdin := true;
            OpenStdin := true;
            Tty := true |};
       Options_HostConfig :=
         {| PortBindings := snd (prepare_ports (map_to_list ports));
            Binds := binds_of (map_to_list mounts) |} |}.
Proof.
  unfold trace_of.
  destruct (exec h (run client name repository tag ports mounts labels restart) w)
    as [[tr out] w'] eqn:Hexec.
  cbn [fst snd].
  run_until_created_ports h Hexec Hports.
  - injection Hexec as <- <- <-. intros Hin. split_in Hin; discriminate.
  - unfold start_and_inspect in Hexec. run_all h Hexec.
    all: injection Hexec as <- <- <-.
    all: intros Hin; split_in Hin; try discriminate Hin.
    all: try (apply Hlogs in Hin; discriminate Hin).
    all: injection Hin as <- <-; reflexivity.
Qed.

(** *** Calls of one kind *)

Section AllEvents.
Context {W : Type} (h : handler W) (Q : event -> Prop).

Lemma all_events_Ret {A : Type} (a : A) : all_events h Q (Ret a).
Proof. intros w ev []. Qed.

Lemma all_events_Panic {A : Type} (msg : string) : all_events h Q (@Panic A msg).
Proof. intros w ev []. Qed.

Lemma all_events_bind {A B : Type} (p : prog A) (f : A -> prog B) :
  all_events h Q p -> (forall a, all_events h Q (f a)) -> all_events h Q (bind p f).
Proof.
  intros Hp Hf w ev. specialize (Hp w ev). revert Hp.
  unfold trace_of. rewrite exec_bind.
  destruct (exec h p w) as [[tr [a | msg]] w1]; cbn [fst snd]; [| tauto].
  specialize (Hf a w1 ev). revert Hf. unfold trace_of.
  destruct (exec h (f a) w1) as [[tr' o] w2]. cbn [fst snd].
  intros Hf Hp Hin. apply in_app_iff in Hin. tauto.
Qed.

Lemma all_events_Vis {A X : Type} (c : call X) (k : X -> prog A) :
  (forall x, Q (event_of c x)) -> (forall x, all_events h Q (k x)) ->
  all_events h Q (Vis c k).
Proof.
  intros Hc Hk w ev. unfold trace_of. cbn [exec].
  destruct (h X c w) as [x w1]. specialize (Hk x w1 ev). revert Hk.
  unfold trace_of. destruct (exec h (k x) w1) as [[tr o] w2]. cbn [fst snd].
  intros Hk [<- | Hin]; auto.
Qed.

End AllEvents.

(** *** The file loader *)

Section LoaderMore.
Context {W : Type} (h : handler W).
Variable url_Parse : string -> result URL.
Variable http_NewRequest : string -> string -> option Request * option error.
Variable path_Join : string -> string -> string.

(** The goroutine of an entry writes to the file of that entry only. *)
Lemma fetch_file_writes (dir name : string) (url : URL) (P : string -> Prop) :
  P name ->
  all_events h (writes_below path_Join dir P)
    (fetch_file http_NewRequest path_Join dir name url).
Proof.
  intros HP w ev. unfold trace_of.
  destruct (exec h (fetch_file http_NewRequest path_Join dir name url) w)
    as [[tr out] w'] eqn:Hexec.
  cbn [fst snd]. unfold fetch_file in Hexec.
  destruct (http_NewRequest "GET" (URL_String url)) as [[request |] [err |]];
    destruct (bool_decide (URL_Hostname url = "webstrates.cs.au.dk")
              || bool_decide (URL_Hostname url = "hiraku.cs.au.dk"));
    run_all h Hexec.
  all: injection Hexec as <- <- <-.
  all: intros Hev; split_in Hev; subst ev; cbn; try exact I.
  all: exists name; split; [exact HP | reflexivity].
Qed.

Lemma run_goroutines_events (Q : event -> Prop) (spawned : list (prog unit)) :
  Forall (all_events h Q) spawned -> all_events h Q (run_goroutines spawned).
Proof.
  induction 1 as [| g rest Hg _ IH]; cbn [run_goroutines].
  - apply all_events_Ret.
  - apply all_events_bind; [exact Hg | intros _; exact IH].
Qed.

(** An entry that is not fetched is written on the calling path. *)
Lemma load_entries_literal (dir name content : string)
  (rest : list (string * string)) (spawned : list (prog unit)) :
  is_fetched url_Parse content = false ->
  load_entries url_Parse http_NewRequest path_Join dir ((name, content) :: rest) spawned =
    bind (log InfoLevel "Writing provided content to tmp dir") (fun _ =>
    bind (trigger (WriteFile (path_Join dir name) content)) (fun err =>
      match err with
      | Some e =>
          bind (log WarnLevel "Could not write file to tmp dir") (fun _ =>
          bind (run_goroutines spawned) (fun _ => Ret (Some e)))
      | None => load_entries url_Parse http_NewRequest path_Join dir rest spawned
      end)).
Proof.
  unfold is_fetched. cbn [load_entries].
  destruct (url_Parse content); [| reflexivity].
  destruct (String.prefix "http" content); [discriminate | reflexivity].
Qed.

Lemma load_entries_fetched (dir name content : string)
  (rest : list (string * string)) (spawned : list (prog unit)) :
  is_fetched url_Parse content = true ->
  exists url,
    url_Parse content = Ok url /\
    load_entries url_Parse http_NewRequest path_Join dir ((name, content) :: rest) spawned =
      load_entries url_Parse http_NewRequest path_Join dir rest
        (spawned ++ [fetch_file http_NewRequest path_Join dir name url]).
Proof.
  unfold is_fetched. cbn [load_entries].
  destruct (url_Parse content) as [url |]; [| discriminate].
  destruct (String.prefix "http" content); [| discriminate].
  intros _. exists url. split; reflexivity.
Qed.

Lemma load_entries_writes (dir : string) (P : string -> Prop)
  (entries : list (string * string)) :
  forall spawned,
    (forall name content, In (name, content) entries -> P name) ->
    Forall (all_events h (writes_below path_Join dir P)) spawned ->
    all_events h (writes_below path_Join dir P)
      (load_entries url_Parse http_NewRequest path_Join dir entries spawned).
Proof.
  induction entries as [| [name content] rest IH]; intros spawned HP Hspawned.
  - cbn [load_entries]. apply all_events_bind.
    + apply run_goroutines_events. exact Hspawned.
    + intros _. apply all_events_Ret.
  - assert (HPname : P name) by (eapply HP; left; reflexivity).
    assert (HPrest : forall n c, In (n, c) rest -> P n)
      by (intros n c Hin; eapply HP; right; exact Hin).
    destruct (is_fetched url_Parse content) eqn:Hfetched.
    + destruct (load_entries_fetched dir name content rest spawned Hfetched)
        as (url & _ & ->).
      apply IH; [exact HPrest |].
      apply Forall_app. split; [exact Hspawned |].
      constructor; [apply fetch_file_writes; exact HPname | constructor].
    + rewrite (load_entries_literal dir name content rest spawned Hfetched).
      cbn [bind log trigger].
      apply all_events_Vis; [intros []; exact I |]. intros _.
      apply all_events_Vis.
      { intros x. cbn. exists name. split; [exact HPname | reflexivity]. }
      intros [e |]; [| apply IH; assumption].
      apply all_events_Vis; [intros []; exact I |]. intros _.
      apply all_events_bind; [apply run_goroutines_events; exact Hspawned |].
      intros _. apply all_events_Ret.
Qed.

Lemma LoadFiles_writes (dir : string) (files : gmap string string) :
  all_events h (writes_below path_Join dir (fun name => is_Some (files !! name)))
    (LoadFiles url_Parse http_NewRequest path_Join dir files).
Proof.
  apply load_entries_writes; [| constructor].
  intros name content Hin. apply In_map_to_list in Hin. eauto.
Qed.

(** With nothing to fetch, [load_entries] writes the entries one after the
    other and stops at the first write that fails. *)
Lemma load_entries_all_literal (dir : string) (entries : list (string * string)) :
  (forall name content, In (name, content) entries -> is_fetched url_Parse content = false) ->
  forall w,
    let p := load_entries url_Parse http_NewRequest path_Join dir entries [] in
    (forall ev, In ev (trace_of h p w) -> is_log ev || is_write ev = true) /\
    (forall path content e, In (EvWriteFile path content (Some e)) (trace_of h p w) ->
       outcome_of h p w = Returned (Some e)) /\
    ((forall path content e, ~ In (EvWriteFile path content (Some e)) (trace_of h p w)) ->
       outcome_of h p w = Returned None /\
       forall name content, In (name, content) entries ->
         In (EvWriteFile (path_Join dir name) content None) (trace_of h p w)).
Proof.
  induction entries as [| [name content] rest IH]; intros Hliteral w p; subst p.
  - unfold trace_of, outcome_of. cbn.
    split; [intros ev [] |]. split; [intros ? ? ? [] |].
    intros _. split; [reflexivity | intros ? ? []].
  - rewrite (load_entries_literal dir name content rest []);
      [| eapply Hliteral; left; reflexivity].
    specialize (IH (fun n c Hin => Hliteral n c (or_intror Hin))).
    unfold trace_of, outcome_of in *.
    cbn [bind exec log trigger event_of run_goroutines].
    destruct (h unit (Log InfoLevel "Writing provided content to tmp dir") w) as [[] w0].
    destruct (h (option error) (WriteFile (path_Join dir name) content) w0) as [[e |] w1].
    + cbn [bind exec log trigger event_of].
      destruct (h unit (Log WarnLevel "Could not write file to tmp dir") w1) as [[] w2].
      cbn [fst snd]. split; [| split].
      * intros ev Hev. split_in Hev; subst ev; reflexivity.
      * intros path c e' Hin. split_in Hin; try discriminate Hin.
        injection Hin as _ _ <-. reflexivity.
      * intros Hnone. exfalso. eapply Hnone. right. left. reflexivity.
    + specialize (IH w1).
      destruct (exec h (load_entries url_Parse http_NewRequest path_Join dir rest []) w1)
        as [[tr o] w2].
      cbn [fst snd] in *. destruct IH as (Hkinds & Hfail & Hok).
      split; [| split].
      * intros ev [<- | [<- | Hev]]; [reflexivity | reflexivity | apply Hkinds; exact Hev].
      * intros path c e' [Hin | [Hin | Hin]]; try discriminate Hin.
        eapply Hfail. exact Hin.
      * intros Hnone.
        destruct Hok as [Hout Hwritten].
        { intros path c e' Hin. eapply Hnone. right. right. exact Hin. }
        split; [exact Hout |].
        intros n c [Heq | Hin].
        -- injection Heq as <- <-. right. left. reflexivity.
        -- right. right. apply Hwritten. exact Hin.
Qed.

End LoaderMore.

(** The run of [run] to its end, one case for each way the collaborators
    can answer. *)
Ltac run_cases h H :=
  run_until_created h H;
  [| unfold start_and_inspect in H; run_all h H];
  injection H as <- <- <-;
  try match goal with He : length [] = 1%nat |- _ => discriminate He end;
  try match goal with
      | He : length (_ :: ?l) = 1%nat |- _ => destruct l; [clear He | discriminate He]
      end.

(** Membership in the part of a trace written by the loop over the mounts. *)
Ltac not_a_log H :=
  match goal with
  | Hlogs : forall ev, In ev ?tr -> is_log ev = true |- _ =>
      match type of H with In _ tr => apply Hlogs in H; discriminate H end
  end.

(** [run] only logs, pulls, creates, lists, starts and inspects. *)
Lemma run_events {W : Type} (h : handler W) (w : W)
  (client : Client) (name repository tag : string) (ports : gmap Z Z)
  (mounts labels : gmap string string) (restart : bool) :
  forall ev,
    In ev (trace_of h (run client name repository tag ports mounts labels restart) w) ->
    is_run_event ev = true.
Proof.
  unfold trace_of.
  destruct (exec h (run client name repository tag ports mounts labels restart) w)
    as [[tr out] w'] eqn:Hexec.
  cbn [fst snd].
  run_until_created h Hexec; [| unfold start_and_inspect in Hexec; run_all h Hexec].
  all: injection Hexec as <- <- <-.
  all: intros ev Hev; split_in Hev; subst; try reflexivity.
  all: match goal with
       | Hlogs : forall ev, In ev ?tr -> is_log ev = true, H : In ?ev ?tr |- _ =>
           apply Hlogs in H; destruct ev; try discriminate H; reflexivity
       end.
Qed.

(** Without restart-recovery [run] returns an error and no handle, or a
    handle and no error; in the second case a start call has succeeded and
    the handle is the inspected snapshot, or the created handle when the
    inspection failed. *)
Lemma run_no_restart_result {W : Type} (h : handler W) (w : W)
  (client : Client) (name repository tag : string) (ports : gmap Z Z)
  (mounts labels : gmap string string) :
  let p := run client name repository tag ports mounts labels false in
  (forall ev, In ev (trace_of h p w) -> is_kill_or_remove ev = false) /\
  (forall all r, ~ In (EvListContainers all r) (trace_of h p w)) /\
  ((exists e,
      outcome_of h p w = Returned (None, Some e) /\
      (forall id, ~ In (EvStartContainer id None) (trace_of h p w)) /\
      (forall id e', In (EvStartContainer id (Some e')) (trace_of h p w) -> e' = e)) \/
   (exists c id,
      outcome_of h p w = Returned (Some c, None) /\
      In (EvStartContainer id None) (trace_of h p w) /\
      (forall id' e', ~ In (EvStartContainer id' (Some e')) (trace_of h p w)) /\
      ((exists id', In (EvInspectContainer id' (Ok c)) (trace_of h p w)) \/
       (exists id' e opts,
          In (EvInspectContainer id' (Err e)) (trace_of h p w) /\
          In (EvCreateContainer opts (Ok c)) (trace_of h p w))))).
Proof.
  intros p. subst p. unfold trace_of, outcome_of.
  destruct (exec h (run client name repository tag ports mounts labels false) w)
    as [[tr out] w'] eqn:Hexec.
  cbn [fst snd].
  assert (Hnever : forall tr0 : list event,
            (forall ev, In ev tr0 -> is_run_event ev = true) ->
            forall ev, In ev tr0 -> is_kill_or_remove ev = false).
  { intros tr0 Hrun ev Hev. apply Hrun in Hev. destruct ev; try discriminate Hev; reflexivity. }
  pose proof (run_events h w client name repository tag ports mounts labels false)
    as Hevents.
  unfold trace_of in Hevents. rewrite Hexec in Hevents. cbn [fst snd] in Hevents.
  specialize (Hnever tr Hevents). clear Hevents. revert Hnever.
  run_cases h Hexec.
  all: intros Hnever; split; [exact Hnever |]; clear Hnever.
  all: split; [intros all r Hl; split_in Hl; try discriminate Hl; not_a_log Hl |].
  all: first
    [ left; eexists; split; [reflexivity |]; split;
      [ intros id Hs; split_in Hs; try discriminate Hs; not_a_log Hs
      | intros id e' Hs; split_in Hs; try discriminate Hs; try not_a_log Hs;
        try (injection Hs as _ <-; reflexivity) ]
    | right; eexists _, _; split; [reflexivity |]; split; [locate |];
      split; [intros id' e' Hs; split_in Hs; try discriminate Hs; not_a_log Hs |];
      first [ left; eexists; locate
            | right; eexists _, _, _; split; locate ] ].
Qed.

(** *** The phases of a daemonized run *)



Section Daemon.
Context {W : Type} (h : handler W).
Variable url_Parse : string -> result URL.
Variable http_NewRequest : string -> string -> option Request * option error.
Variable path_Join : string -> string -> string.

(** A daemonized run ends when no client can be made, or when the host
    directory cannot be made, or in the file loader, or it goes through the
    file loader and then through [run]. *)
Lemma RunDaemonized_phases (w : W) (name repository tag : string) (ports : gmap Z Z)
  (files labels : gmap string string) (restart : bool) :
  let p := RunDaemonized url_Parse http_NewRequest path_Join
             name repository tag ports files labels restart in
  (exists e,
     trace_of h p w = [EvNewClientFromEnv (Err e);
                       EvLog ErrorLevel "Could not create docker client"] /\
     outcome_of h p w = Returned (None, Some e)) \/
  (exists c root e,
     trace_of h p w = [EvNewClientFromEnv (Ok c); EvViperGetString "mounts" root;
                       EvMkdirAll (path_Join root name) (Some e)] /\
     outcome_of h p w = Returned (None, Some e)) \/
  (exists c root wL,
     let load := LoadFiles url_Parse http_NewRequest path_Join (path_Join root name) files in
     trace_of h p w = ([EvNewClientFromEnv (Ok c); EvViperGetString "mounts" root;
                        EvMkdirAll (path_Join root name) None] ++ trace_of h load wL)%list /\
     ((exists msg, outcome_of h load wL = Panicked msg /\ outcome_of h p w = Panicked msg) \/
      (exists e, outcome_of h load wL = Returned (Some e) /\
                 outcome_of h p w = Returned (None, Some e)))) \/
  (exists c root wL wR,
     let load := LoadFiles url_Parse http_NewRequest path_Join (path_Join root name) files in
     let start := run c name repository tag ports
                    (daemon_mounts (path_Join root name) name) labels restart in
     outcome_of h load wL = Returned None /\
     trace_of h p w = ([EvNewClientFromEnv (Ok c); EvViperGetString "mounts" root;
                        EvMkdirAll (path_Join root name) None]
                       ++ trace_of h load wL ++ trace_of h start wR)%list /\
     outcome_of h p w = daemon_result (outcome_of h start wR)).
Proof.
  intros p. subst p. unfold trace_of at 1 2 3 5, outcome_of at 1 2 4 6 8.
  destruct (exec h (RunDaemonized url_Parse http_NewRequest path_Join
                      name repository tag ports files labels restart) w)
    as [[tr out] w'] eqn:Hexec.
  cbn [fst snd]. unfold RunDaemonized in Hexec.
  do 3 run_step h Hexec;
    [| run_all h Hexec; injection Hexec as <- <- <-;
       left; eexists; split; reflexivity].
  do 2 run_step h Hexec;
    [run_all h Hexec; injection Hexec as <- <- <-;
     right; left; eexists _, _, _; split; reflexivity |].
  rewrite exec_bind in Hexec.
  match type of Hexec with
  | context [exec h (LoadFiles _ _ _ ?dir _) ?w0] =>
      destruct (exec h (LoadFiles url_Parse http_NewRequest path_Join dir files) w0)
        as [[trL [[e |] | msg]] wL] eqn:Hload
  end; cbn [fst snd bind exec] in Hexec.
  - injection Hexec as <- <- <-. right. right. left.
    eexists _, _, _. unfold trace_of, outcome_of. rewrite Hload. cbn [fst snd].
    rewrite ?app_nil_r. split; [reflexivity |]. right. eexists. split; reflexivity.
  - rewrite exec_bind in Hexec.
    match type of Hexec with
    | context [exec h (run ?c _ _ _ _ ?m _ _) ?w0] =>
        destruct (exec h (run c name repository tag ports m labels restart) w0)
          as [[trR oR] wR] eqn:Hrun
    end.
    right. right. right.
    eexists _, _, _, _. unfold trace_of, outcome_of. rewrite Hload, Hrun. cbn [fst snd].
    split; [reflexivity |].
    destruct oR as [[c' [e |]] | msg]; cbn [fst snd bind exec] in Hexec;
      injection Hexec as <- <- <-; rewrite ?app_nil_r; split; reflexivity.
  - injection Hexec as <- <- <-. right. right. left.
    eexists _, _, _. unfold trace_of, outcome_of. rewrite Hload. cbn [fst snd].
    rewrite ?app_nil_r. split; [reflexivity |]. left. eexists. split; reflexivity.
Qed.

End Daemon.

End ContainerMore.

(** ** Further properties of the container package *)

Section ContainerExtras.
Import Docker Http Effects ContainerPkg Traces MoreTraces Fixtures MoreFixtures.
Import ContainerFacts ContainerMore.

(** X11. [List] uses the client it was given, or makes one when it was
    given none. With a client, it lists once, with the [all] flag it was
    given: when the daemon answers with containers, [List] returns exactly
    those that satisfy the predicate, in the daemon's order; when the
    listing fails it returns that error and no containers. It makes no other
    call to the daemon and makes no client when one was passed. *)
Theorem List_returns_the_matches {W : Type} (h : handler W) (w w0 : W)
  (client : option Client) (made : Client) (matches : matcher) (all : bool) :
  match client with
  | Some _ => w0 = w
  | None => h _ NewClientFromEnv w = (Ok made, w0)
  end ->
  let tr := trace_of h (List client matches all) w in
  let out := outcome_of h (List client matches all) w in
  (forall cs w1, h _ (ListContainers all) w0 = (Ok cs, w1) ->
     out = Returned (Ok (List.filter matches cs)) /\
     In (EvListContainers all (Ok cs)) tr /\
     (forall c, In c (List.filter matches cs) <-> In c cs /\ matches c = true)) /\
  (forall e w1, h _ (ListContainers all) w0 = (Err e, w1) ->
     out = Returned (Err e) /\ In (EvListContainers all (Err e)) tr) /\
  (forall all' r all'' r',
     In (EvListContainers all' r) tr -> In (EvListContainers all'' r') tr ->
     all' = all /\ all'' = all /\ r = r') /\
  (forall ev, In ev tr -> is_listing_event ev = true) /\
  (forall c r, client = Some c -> ~ In (EvNewClientFromEnv r) tr).
Proof.
  intros Hclient tr out. subst tr out. unfold trace_of, outcome_of.
  destruct (exec h (List client matches all) w) as [[tr out] w'] eqn:Hexec.
  cbn [fst snd]. unfold List in Hexec.
  destruct client as [c |]; [subst w | cbn [bind exec event_of trigger log] in Hexec;
                                        rewrite Hclient in Hexec];
    cbn [bind exec event_of trigger log] in Hexec;
    destruct (h _ (ListContainers all) w0) as [[cs | e] w1] eqn:Hlist;
    run_all h Hexec; injection Hexec as <- <- <-.
  all: split; [| split; [| split; [| split]]].
  all: try (intros cs' w1' Heq; discriminate Heq).
  all: try (intros cs' w1' Heq; injection Heq as <- <-;
            split; [reflexivity | split; [find_in | intros c0; apply filter_In]]).
  all: try (intros e' w1' Heq; injection Heq as <- <-;
            split; [reflexivity | find_in]).
  all: try (intros ev Hin; split_in Hin; subst ev; reflexivity).
  all: try (intros c0 r Hc Hin; try discriminate Hc; split_in Hin; discriminate Hin).
  all: intros a1 r1 a2 r2 H1 H2; split_in H1; try discriminate H1;
       split_in H2; try discriminate H2.
  all: injection H1 as <- <-; injection H2 as <- <-; repeat split.
Qed.

Lemma List_returns_the_matches_witness :
  outcome_of (scripted all_fine) (List None (WithName "golem") true) tt =
    Returned (Ok (List.filter (WithName "golem") [golem])).
Proof.
  destruct (List_returns_the_matches (scripted all_fine) tt tt None TheClient
              (WithName "golem") true eq_refl) as (Hlisted & _).
  destruct (Hlisted [golem] tt eq_refl) as (Hout & _). exact Hout.
Defined.

(** X12. [Kill] gives up at the first failure: when no client can be made
    or the listing fails it returns that error and calls neither kill nor
    remove; when the kill call fails it returns that error and does not
    remove; when the remove call fails it returns that error. *)
Theorem Kill_stops_at_first_failure {W : Type} (h : handler W) (w : W) (m : matcher)
  (removeContainer destroyData : bool) :
  let tr := trace_of h (Kill m removeContainer destroyData) w in
  let out := outcome_of h (Kill m removeContainer destroyData) w in
  (forall e, In (EvNewClientFromEnv (Err e)) tr ->
     out = Returned (Some e) /\ forall ev, In ev tr -> is_container_call ev = false) /\
  (forall all e, In (EvListContainers all (Err e)) tr ->
     out = Returned (Some e) /\ forall ev, In ev tr -> is_kill_or_remove ev = false) /\
  (forall id e, In (EvKillContainer id (Some e)) tr ->
     out = Returned (Some e) /\
     forall id' force removeVolumes r, ~ In (EvRemoveContainer id' force removeVolumes r) tr) /\
  (forall id force removeVolumes e,
     In (EvRemoveContainer id force removeVolumes (Some e)) tr -> out = Returned (Some e)).
Proof.
  intros tr out. subst tr out. unfold trace_of, outcome_of.
  destruct (exec h (Kill m removeContainer destroyData) w) as [[tr out] w'] eqn:Hexec.
  cbn [fst snd]. unfold Kill, List in Hexec.
  run_all h Hexec.
  all: injection Hexec as <- <- <-.
  all: split; [| split; [| split]].
  all: intros; match goal with Hin : In _ _ |- _ => rename Hin into HIN end.
  all: split_in HIN; try discriminate HIN.
  all: injection HIN; intros; subst.
  all: try reflexivity.
  all: split; [reflexivity |].
  all: try (intros ev Hev; split_in Hev; subst ev; reflexivity).
  all: intros id' force' rv r Hr; split_in Hr; discriminate Hr.
Qed.

(** X13. [Kill] returns nil only when it killed: the listing gave exactly
    one match, the kill call for it succeeded and, if removal was asked
    for, so did the forced remove call. And [Kill] always returns: the
    element [containers[0]] is only read when the list has one element. *)
Theorem Kill_nil_means_killed {W : Type} (h : handler W) (w : W) (m : matcher)
  (removeContainer destroyData : bool) :
  let tr := trace_of h (Kill m removeContainer destroyData) w in
  let out := outcome_of h (Kill m removeContainer destroyData) w in
  (exists r, out = Returned r) /\
  (out = Returned None ->
   exists cs c,
     In (EvListContainers false (Ok cs)) tr /\
     List.filter m cs = [c] /\
     In (EvKillContainer (ID c) None) tr /\
     (removeContainer = true -> In (EvRemoveContainer (ID c) true destroyData None) tr)).
Proof.
  intros tr out. subst tr out. unfold trace_of, outcome_of.
  destruct (exec h (Kill m removeContainer destroyData) w) as [[tr out] w'] eqn:Hexec.
  cbn [fst snd]. unfold Kill, List in Hexec.
  run_all h Hexec.
  all: injection Hexec as <- <- <-.
  all: try match goal with He : length [] = 1%nat |- _ => discriminate He end.
  all: try match goal with
           | He : length (_ :: ?l) = 1%nat |- _ => destruct l; [clear He | discriminate He]
           end.
  all: split; [eexists; reflexivity |].
  all: intros Hout; try discriminate Hout.
  all: eexists _, _; split; [find_in |]; split; [eassumption |]; split; [find_in |].
  all: intros Hremove; try discriminate Hremove; find_in.
Qed.

(** X14. When the image cannot be pulled, [run] returns that error and no
    handle, and makes no call that creates, starts, inspects, lists, kills
    or removes a container. *)
Theorem run_pull_failure {W : Type} (h : handler W) (w : W)
  (client : Client) (name repository tag : string) (ports : gmap Z Z)
  (mounts labels : gmap string string) (restart : bool)
  (repository' tag' : string) (e : error) :
  let p := run client name repository tag ports mounts labels restart in
  In (EvPullImage repository' tag' (Some e)) (trace_of h p w) ->
  outcome_of h p w = Returned (None, Some e) /\
  forall ev, In ev (trace_of h p w) -> is_container_call ev = false.
Proof.
  intros p. subst p. unfold trace_of, outcome_of.
  destruct (exec h (run client name repository tag ports mounts labels restart) w)
    as [[tr out] w'] eqn:Hexec.
  cbn [fst snd]. run_cases h Hexec.
  all: intros Hin; split_in Hin; try discriminate Hin; try not_a_log Hin.
  injection Hin as <- <- <-. split; [reflexivity |].
  intros ev Hev. split_in Hev; subst ev; reflexivity.
Qed.

Lemma run_pull_failure_witness :
  outcome_of (scripted pull_fails) (run TheClient "golem" "repo" "latest" ∅ ∅ ∅ true) tt =
    Returned (None, Some (ExternalError "no such image")).
Proof.
  apply (run_pull_failure (scripted pull_fails) tt TheClient "golem" "repo" "latest"
           ∅ ∅ ∅ true "repo" "latest" (ExternalError "no such image")).
  vm_compute. auto 10.
Defined.

(** X15. [run] never kills or removes a container. In particular, when the
    start call fails it returns the start error and no handle, does not
    inspect, and leaves the container it has just created in place. *)
Theorem run_start_failure_no_cleanup {W : Type} (h : handler W) (w : W)
  (client : Client) (name repository tag : string) (ports : gmap Z Z)
  (mounts labels : gmap string string) (restart : bool) :
  let p := run client name repository tag ports mounts labels restart in
  (forall ev, In ev (trace_of h p w) -> is_kill_or_remove ev = false) /\
  (forall id e, In (EvStartContainer id (Some e)) (trace_of h p w) ->
     outcome_of h p w = Returned (None, Some e) /\
     forall id' r, ~ In (EvInspectContainer id' r) (trace_of h p w)).
Proof.
  intros p. subst p. unfold trace_of, outcome_of.
  destruct (exec h (run client name repository tag ports mounts labels restart) w)
    as [[tr out] w'] eqn:Hexec.
  cbn [fst snd]. run_cases h Hexec.
  all: split.
  all: try (intros ev Hev; split_in Hev; subst; try reflexivity;
            match goal with
            | Hlogs : forall ev, In ev ?tr -> is_log ev = true, H : In ?ev ?tr |- _ =>
                apply Hlogs in H; destruct ev; try discriminate H; reflexivity
            end).
  all: intros id e' Hin; split_in Hin; try discriminate Hin; try not_a_log Hin.
  all: injection Hin as <- <-; split; [reflexivity |].
  all: intros id' r Hr; split_in Hr; try discriminate Hr; not_a_log Hr.
Qed.

(** X16. [run] always returns. When it returns a nil error, a start call
    has succeeded; the handle is the inspected snapshot when the inspection
    succeeded; and without restart-recovery the handle is never nil. *)
Theorem run_nil_error_means_started {W : Type} (h : handler W) (w : W)
  (client : Client) (name repository tag : string) (ports : gmap Z Z)
  (mounts labels : gmap string string) (restart : bool) :
  let p := run client name repository tag ports mounts labels restart in
  (exists r, outcome_of h p w = Returned r) /\
  (forall c, outcome_of h p w = Returned (c, None) ->
     (exists id, In (EvStartContainer id None) (trace_of h p w)) /\
     (restart = false -> c <> None) /\
     (forall id c', In (EvInspectContainer id (Ok c')) (trace_of h p w) -> c = Some c')).
Proof.
  intros p. subst p. unfold trace_of, outcome_of.
  destruct (exec h (run client name repository tag ports mounts labels restart) w)
    as [[tr out] w'] eqn:Hexec.
  cbn [fst snd]. run_cases h Hexec.
  all: split; [eexists; reflexivity |].
  all: intros c' Hout; try discriminate Hout.
  all: injection Hout as <-.
  all: split; [eexists; find_in |].
  all: split; [intros Hrestart; try discriminate Hrestart; discriminate |].
  all: intros id c'' Hin; split_in Hin; try discriminate Hin; try not_a_log Hin.
  all: injection Hin as <- <-; reflexivity.
Qed.

(** X17. [run] acts on one container: after a successful creation the
    container started is the one created; the container inspected is the one
    whose start succeeded; and nothing is created or started unless the
    image was pulled. *)
Theorem run_acts_on_one_container {W : Type} (h : handler W) (w : W)
  (client : Client) (name repository tag : string) (ports : gmap Z Z)
  (mounts labels : gmap string string) (restart : bool) :
  let p := run client name repository tag ports mounts labels restart in
  (forall opts c id r,
     In (EvCreateContainer opts (Ok c)) (trace_of h p w) ->
     In (EvStartContainer id r) (trace_of h p w) -> id = Container_ID c) /\
  (forall id r, In (EvInspectContainer id r) (trace_of h p w) ->
     In (EvStartContainer id None) (trace_of h p w)) /\
  (forall ev, In ev (trace_of h p w) -> is_container_call ev = true ->
     In (EvPullImage repository tag None) (trace_of h p w)).
Proof.
  intros p. subst p. unfold trace_of, outcome_of.
  destruct (exec h (run client name repository tag ports mounts labels restart) w)
    as [[tr out] w'] eqn:Hexec.
  cbn [fst snd]. run_cases h Hexec.
  all: split; [| split].
  all: try (intros opts c0 id r Hc Hs;
            split_in Hc; try discriminate Hc; try not_a_log Hc;
            split_in Hs; try discriminate Hs; try not_a_log Hs;
            injection Hc as <- <-; injection Hs as <- <-; reflexivity).
  all: try (intros id r Hin; split_in Hin; try discriminate Hin; try not_a_log Hin;
            injection Hin as <- <-; find_in).
  all: intros ev Hev Hcall; try find_in.
  all: split_in Hev; subst ev; discriminate Hcall.
Qed.

(** X18. Ports of [run]: every container port of the port map is exposed
    as ["<port>/tcp"]; the exposed ports are exactly the ports that have a
    host binding; and each of them is bound, on all interfaces
    (["0.0.0.0"]), to exactly one host port, one that the map sends to it.
    (When two host ports go to the same container port, one binding is
    kept.) *)
Theorem run_port_bindings {W : Type} (h : handler W) (w : W)
  (client : Client) (name repository tag : string) (ports : gmap Z Z)
  (mounts labels : gmap string string) (restart : bool)
  (opts : CreateContainerOptions) (created : result Container) :
  In (EvCreateContainer opts created)
     (trace_of h (run client name repository tag ports mounts labels restart) w) ->
  (forall outside inside, ports !! outside = Some inside ->
     Strconv.Itoa inside ++ "/tcp" ∈ ExposedPorts (Options_Config opts)) /\
  (forall p, p ∈ ExposedPorts (Options_Config opts) <->
             is_Some (PortBindings (Options_HostConfig opts) !! p)) /\
  (forall p bs, PortBindings (Options_HostConfig opts) !! p = Some bs ->
     exists outside inside,
       ports !! outside = Some inside /\
       p = Strconv.Itoa inside ++ "/tcp" /\
       bs = [ {| HostIP := "0.0.0.0"; HostPort := Strconv.Itoa outside |} ]).
Proof.
  intros Hin. apply run_create_request in Hin. subst opts.
  cbn [Options_Config Options_HostConfig ExposedPorts PortBindings].
  destruct (prepare_ports_invariant (map_to_list ports)) as (Hexposed & Hdom & Hbound).
  split; [| split].
  - intros outside inside Hp. eapply Hexposed. apply In_map_to_list. exact Hp.
  - exact Hdom.
  - intros p bs Hp. destruct (Hbound p bs Hp) as (o & i & Hoi & Hkey & Hbs).
    exists o, i. split; [apply In_map_to_list; exact Hoi | split; assumption].
Qed.

Lemma run_port_bindings_witness :
  "80/tcp" ∈ ExposedPorts (Options_Config (golem_request {[ 8080 := 80 ]} ∅)).
Proof.
  destruct (run_port_bindings (scripted all_fine) tt TheClient "golem" "repo" "latest"
              {[ 8080 := 80 ]} ∅ ∅ false
              (golem_request {[ 8080 := 80 ]} ∅) (Ok golem_handle)) as (Hexposed & _).
  { vm_compute. auto 10. }
  apply (Hexposed 8080 80). reflexivity.
Defined.

(** X19. The request of [run] to create the container carries the given
    name, the image ["repository:tag"], the given labels, all three standard
    streams attached with standard input open and a terminal, and one mount
    and one bind string ["source:destination"] for every entry of the mount
    map and for nothing else. *)
Theorem run_create_request_contents {W : Type} (h : handler W) (w : W)
  (client : Client) (name repository tag : string) (ports : gmap Z Z)
  (mounts labels : gmap string string) (restart : bool)
  (opts : CreateContainerOptions) (created : result Container) :
  In (EvCreateContainer opts created)
     (trace_of h (run client name repository tag ports mounts labels restart) w) ->
  Name opts = name /\
  Image (Options_Config opts) = repository ++ ":" ++ tag /\
  Config_Labels (Options_Config opts) = labels /\
  (AttachStdout (Options_Config opts) && AttachStderr (Options_Config opts)
   && AttachStdin (Options_Config opts) && OpenStdin (Options_Config opts)
   && Tty (Options_Config opts) = true) /\
  (forall s d, mounts !! s = Some d <->
     In {| Source := s; Destination := d |} (Mounts (Options_Config opts))) /\
  (forall s d, mounts !! s = Some d ->
     In (s ++ ":" ++ d) (Binds (Options_HostConfig opts))) /\
  length (Mounts (Options_Config opts)) = size mounts /\
  length (Binds (Options_HostConfig opts)) = size mounts.
Proof.
  intros Hin. apply run_create_request in Hin. subst opts.
  cbn [Name Options_Config Options_HostConfig Image Config_Labels Mounts Binds
       AttachStdout AttachStderr AttachStdin OpenStdin Tty andb].
  repeat (split; [reflexivity |]).
  unfold mounts_of, binds_of.
  split; [| split; [| split]].
  - intros s d. rewrite <- In_map_to_list, in_map_iff. split.
    + intros Hsd. exists (s, d). split; [reflexivity | exact Hsd].
    + intros ([s' d'] & Heq & Hsd). injection Heq as <- <-. exact Hsd.
  - intros s d Hsd. apply in_map_iff. exists (s, d).
    split; [reflexivity | apply In_map_to_list; exact Hsd].
  - rewrite length_map. apply length_map_to_list.
  - rewrite length_map. apply length_map_to_list.
Qed.

Lemma run_create_request_contents_witness :
  Image (Options_Config (golem_request ∅ {[ "/data" := "/srv" ]})) = "repo" ++ ":" ++ "latest".
Proof.
  destruct (run_create_request_contents (scripted all_fine) tt TheClient
              "golem" "repo" "latest" ∅ {[ "/data" := "/srv" ]} ∅ false
              (golem_request ∅ {[ "/data" := "/srv" ]}) (Ok golem_handle))
    as (_ & Himage & _).
  { vm_compute. auto 10. }
  exact Himage.
Defined.

(** X20. When no content of the map is something to fetch, [LoadFiles]
    only logs and writes: if no write fails it returns nil and has written
    every entry, byte for byte, to the file of its name in the directory;
    if a write fails it returns the error of that write. *)
Theorem LoadFiles_literal_entries {W : Type} (h : handler W) (w : W)
  (url_Parse : string -> result URL)
  (http_NewRequest : string -> string -> option Request * option error)
  (path_Join : string -> string -> string)
  (dir : string) (files : gmap string string) :
  (forall name content, files !! name = Some content ->
     is_fetched url_Parse content = false) ->
  let p := LoadFiles url_Parse http_NewRequest path_Join dir files in
  (forall ev, In ev (trace_of h p w) -> is_log ev || is_write ev = true) /\
  (forall path content e, In (EvWriteFile path content (Some e)) (trace_of h p w) ->
     outcome_of h p w = Returned (Some e)) /\
  ((forall path content e, ~ In (EvWriteFile path content (Some e)) (trace_of h p w)) ->
     outcome_of h p w = Returned None /\
     forall name content, files !! name = Some content ->
       In (EvWriteFile (path_Join dir name) content None) (trace_of h p w)).
Proof.
  intros Hliteral p. subst p. unfold LoadFiles.
  destruct (load_entries_all_literal h url_Parse http_NewRequest path_Join dir
              (map_to_list files)
              (fun n c Hin => Hliteral n c (proj1 (In_map_to_list files n c) Hin)) w)
    as (Hkinds & Hfail & Hok).
  split; [exact Hkinds | split; [exact Hfail |]].
  intros Hnone. destruct (Hok Hnone) as [Hout Hwritten].
  split; [exact Hout |].
  intros name content Hfile. apply Hwritten, In_map_to_list. exact Hfile.
Qed.

Lemma LoadFiles_literal_entries_witness :
  In (EvWriteFile "/mnt/golem/a.txt" "hello" None)
     (trace_of (scripted all_fine)
        (LoadFiles sample_url_Parse sample_NewRequest sample_Join "/mnt/golem"
           {[ "a.txt" := "hello" ]}) tt).
Proof.
  destruct (LoadFiles_literal_entries (scripted all_fine) tt
              sample_url_Parse sample_NewRequest sample_Join "/mnt/golem"
              {[ "a.txt" := "hello" ]}) as (_ & _ & Hok).
  - intros name content Hfile. apply lookup_singleton_Some in Hfile as [_ <-].
    reflexivity.
  - destruct Hok as [_ Hwritten].
    + intros path content e Hin. vm_compute in Hin.
      repeat destruct Hin as [Hin | Hin]; try discriminate Hin. exact Hin.
    + apply (Hwritten "a.txt" "hello"). reflexivity.
Defined.

(** X21. Whatever the map holds and however the collaborators answer,
    [LoadFiles] and its goroutines write only to files of the directory that
    are named by a key of the map. *)
Theorem LoadFiles_writes_only_its_files {W : Type} (h : handler W) (w : W)
  (url_Parse : string -> result URL)
  (http_NewRequest : string -> string -> option Request * option error)
  (path_Join : string -> string -> string)
  (dir : string) (files : gmap string string)
  (path content : string) (r : option error) :
  In (EvWriteFile path content r)
     (trace_of h (LoadFiles url_Parse http_NewRequest path_Join dir files) w) ->
  exists name, is_Some (files !! name) /\ path = path_Join dir name.
Proof.
  intros Hin.
  apply (LoadFiles_writes h url_Parse http_NewRequest path_Join dir files w _ Hin).
Qed.

Lemma LoadFiles_writes_only_its_files_witness :
  exists name, is_Some (two_files !! name) /\ "/mnt/golem/b.txt" = sample_Join "/mnt/golem" name.
Proof.
  apply (LoadFiles_writes_only_its_files (scripted all_fine) tt
           sample_url_Parse sample_NewRequest sample_Join "/mnt/golem" two_files
           "/mnt/golem/b.txt" "fetched" None).
  vm_compute. auto 20.
Defined.

(** X22. The goroutine of a URL entry sends the request that
    [http.NewRequest] made; it adds the basic-auth credentials exactly when
    the host of the URL is one of the two webstrates hosts, and to no other
    host. *)
Theorem fetch_file_credentials {W : Type} (h : handler W) (w : W)
  (http_NewRequest : string -> string -> option Request * option error)
  (path_Join : string -> string -> string)
  (dir name : string) (url : URL)
  (made sent : Request) (err : option error) (answer : option Response * option error) :
  http_NewRequest "GET" (URL_String url) = (Some made, err) ->
  In (EvHttpDo sent answer) (trace_of h (fetch_file http_NewRequest path_Join dir name url) w) ->
  ((URL_Hostname url = "webstrates.cs.au.dk" \/ URL_Hostname url = "hiraku.cs.au.dk") /\
   sent = SetBasicAuth "web" "strate" made) \/
  (URL_Hostname url <> "webstrates.cs.au.dk" /\ URL_Hostname url <> "hiraku.cs.au.dk" /\
   sent = made).
Proof.
  intros Hmade. unfold trace_of.
  destruct (exec h (fetch_file http_NewRequest path_Join dir name url) w)
    as [[tr out] w'] eqn:Hexec.
  cbn [fst snd]. unfold fetch_file in Hexec. rewrite Hmade in Hexec.
  destruct (bool_decide_reflect (URL_Hostname url = "webstrates.cs.au.dk")) as [H1 | H1];
    destruct (bool_decide_reflect (URL_Hostname url = "hiraku.cs.au.dk")) as [H2 | H2];
    cbn [orb] in Hexec; destruct err; run_all h Hexec.
  all: injection Hexec as <- <- <-.
  all: intros Hin; split_in Hin; try discriminate Hin.
  all: injection Hin as <- <-.
  all: first [ left; split; [tauto | reflexivity]
             | right; split; [exact H1 | split; [exact H2 | reflexivity]] ].
Qed.

Lemma fetch_file_credentials_witness :
  ((URL_Hostname webstrates_url = "webstrates.cs.au.dk" \/
    URL_Hostname webstrates_url = "hiraku.cs.au.dk") /\
   SetBasicAuth "web" "strate" (get_request webstrates_url) =
     SetBasicAuth "web" "strate" (get_request webstrates_url)) \/
  (URL_Hostname webstrates_url <> "webstrates.cs.au.dk" /\
   URL_Hostname webstrates_url <> "hiraku.cs.au.dk" /\
   SetBasicAuth "web" "strate" (get_request webstrates_url) = get_request webstrates_url).
Proof.
  apply (fetch_file_credentials (scripted all_fine) tt sample_NewRequest sample_Join
           "/mnt/golem" "logo.png" webstrates_url
           (get_request webstrates_url) (SetBasicAuth "web" "strate" (get_request webstrates_url))
           None (Some {| Body := 0 |}, None)).
  - reflexivity.
  - vm_compute. auto 10.
Defined.

(** X23. Once a GET has come back with a response, the goroutine writes
    what it read from the body to the file of its entry, also when reading
    reported an error (so a partial body is written), closes the body and
    ends normally, whatever errors the read and the write report. *)
Theorem fetch_file_writes_what_it_read {W : Type} (h : handler W) (w : W)
  (http_NewRequest : string -> string -> option Request * option error)
  (path_Join : string -> string -> string)
  (dir name : string) (url : URL)
  (sent : Request) (response : Response) (err : option error) :
  let p := fetch_file http_NewRequest path_Join dir name url in
  In (EvHttpDo sent (Some response, err)) (trace_of h p w) ->
  outcome_of h p w = Returned tt /\
  In (EvBodyClose (Body response)) (trace_of h p w) /\
  exists fetched rerr werr,
    In (EvReadAll (Body response) (fetched, rerr)) (trace_of h p w) /\
    In (EvWriteFile (path_Join dir name) fetched werr) (trace_of h p w).
Proof.
  intros p. subst p. unfold trace_of, outcome_of.
  destruct (exec h (fetch_file http_NewRequest path_Join dir name url) w)
    as [[tr out] w'] eqn:Hexec.
  cbn [fst snd]. unfold fetch_file in Hexec.
  destruct (http_NewRequest "GET" (URL_String url)) as [[request |] [e |]];
    destruct (bool_decide (URL_Hostname url = "webstrates.cs.au.dk")
              || bool_decide (URL_Hostname url = "hiraku.cs.au.dk"));
    run_all h Hexec.
  all: injection Hexec as <- <- <-.
  all: intros Hin; split_in Hin; try discriminate Hin.
  all: injection Hin as <- <- <-.
  all: repeat match goal with u : unit |- _ => destruct u end.
  all: split; [reflexivity |]; split; [find_in |].
  all: eexists _, _, _; split; find_in.
Qed.

Lemma fetch_file_writes_what_it_read_witness :
  outcome_of (scripted read_fails)
    (fetch_file sample_NewRequest sample_Join "/mnt/golem" "x" example_url) tt = Returned tt.
Proof.
  apply (fetch_file_writes_what_it_read (scripted read_fails) tt sample_NewRequest sample_Join
           "/mnt/golem" "x" example_url (get_request example_url) {| Body := 0 |} None).
  vm_compute. auto 10.
Defined.

(** X24. When the host directory of a daemonized run cannot be made,
    [RunDaemonized] returns that error and no handle; nothing is written or
    fetched and the daemon is asked for nothing. *)
Theorem RunDaemonized_mkdir_failure {W : Type} (h : handler W) (w : W)
  (url_Parse : string -> result URL)
  (http_NewRequest : string -> string -> option Request * option error)
  (path_Join : string -> string -> string)
  (name repository tag : string) (ports : gmap Z Z)
  (files labels : gmap string string) (restart : bool)
  (path : string) (e : error) :
  let p := RunDaemonized url_Parse http_NewRequest path_Join
             name repository tag ports files labels restart in
  In (EvMkdirAll path (Some e)) (trace_of h p w) ->
  outcome_of h p w = Returned (None, Some e) /\
  forall ev, In ev (trace_of h p w) ->
    is_write ev = false /\ is_http ev = false /\ is_docker_call ev = false.
Proof.
  intros p. subst p.
  destruct (RunDaemonized_phases h url_Parse http_NewRequest path_Join w
              name repository tag ports files labels restart)
    as [(e0 & -> & ->) | [(c & root & e0 & -> & ->) | [(c & root & wL & -> & _)
       | (c & root & wL & wR & _ & -> & _)]]].
  - intros Hin. split_in Hin; discriminate Hin.
  - intros Hin. split_in Hin; try discriminate Hin. injection Hin as _ <-.
    split; [reflexivity |].
    intros ev Hev. split_in Hev; subst ev; repeat split.
  - intros Hin. split_in Hin; try discriminate Hin.
    apply (loader_ok_LoadFiles h url_Parse http_NewRequest path_Join) in Hin.
    discriminate Hin.
  - intros Hin. split_in Hin; try discriminate Hin.
    + apply (loader_ok_LoadFiles h url_Parse http_NewRequest path_Join) in Hin.
      discriminate Hin.
    + apply run_events in Hin. discriminate Hin.
Qed.

Lemma RunDaemonized_mkdir_failure_witness :
  outcome_of (scripted mkdir_fails)
    (RunDaemonized sample_url_Parse sample_NewRequest sample_Join
       "golem" "repo" "latest" ∅ two_files ∅ false) tt =
    Returned (None, Some (ExternalError "permission denied")).
Proof.
  apply (RunDaemonized_mkdir_failure (scripted mkdir_fails) tt
           sample_url_Parse sample_NewRequest sample_Join
           "golem" "repo" "latest" ∅ two_files ∅ false
           "/mnt/golem" (ExternalError "permission denied")).
  vm_compute. auto 10.
Defined.

(** X25. A daemonized run writes only below its host directory, the
    configured mounts root joined with the name of the run, and only to
    files named by a key of the input map; and it asks the daemon to pull,
    create, list, start or inspect only in runs in which that directory was
    made. *)
Theorem RunDaemonized_stages_under_hostdir {W : Type} (h : handler W) (w : W)
  (url_Parse : string -> result URL)
  (http_NewRequest : string -> string -> option Request * option error)
  (path_Join : string -> string -> string)
  (name repository tag : string) (ports : gmap Z Z)
  (files labels : gmap string string) (restart : bool) :
  let p := RunDaemonized url_Parse http_NewRequest path_Join
             name repository tag ports files labels restart in
  (forall path content r, In (EvWriteFile path content r) (trace_of h p w) ->
     exists root file,
       In (EvViperGetString "mounts" root) (trace_of h p w) /\
       is_Some (files !! file) /\
       path = path_Join (path_Join root name) file) /\
  (forall ev, In ev (trace_of h p w) -> is_docker_call ev = true ->
     exists root,
       In (EvViperGetString "mounts" root) (trace_of h p w) /\
       In (EvMkdirAll (path_Join root name) None) (trace_of h p w)).
Proof.
  intros p. subst p.
  destruct (RunDaemonized_phases h url_Parse http_NewRequest path_Join w
              name repository tag ports files labels restart)
    as [(e0 & -> & _) | [(c & root & e0 & -> & _) | [(c & root & wL & -> & _)
       | (c & root & wL & wR & _ & -> & _)]]].
  - split.
    + intros path content r Hin. split_in Hin; discriminate Hin.
    + intros ev Hin Hcall. split_in Hin; subst ev; discriminate Hcall.
  - split.
    + intros path content r Hin. split_in Hin; discriminate Hin.
    + intros ev Hin Hcall. split_in Hin; subst ev; discriminate Hcall.
  - split.
    + intros path content r Hin. split_in Hin; try discriminate Hin.
      destruct (LoadFiles_writes h url_Parse http_NewRequest path_Join _ files wL _ Hin)
        as (file & Hfile & ->).
      exists root, file. split; [locate | split; [exact Hfile | reflexivity]].
    + intros ev Hin Hcall. exists root. split; locate.
  - split.
    + intros path content r Hin. split_in Hin; try discriminate Hin.
      * destruct (LoadFiles_writes h url_Parse http_NewRequest path_Join _ files wL _ Hin)
          as (file & Hfile & ->).
        exists root, file. split; [locate | split; [exact Hfile | reflexivity]].
      * apply run_events in Hin. discriminate Hin.
    + intros ev Hin Hcall. exists root. split; locate.
Qed.

(** X26. [run] and [RunDaemonized] never return an error together with a
    handle: when the error is not nil the handle is nil. *)
Theorem error_comes_without_handle {W : Type} (h : handler W) (w : W)
  (url_Parse : string -> result URL)
  (http_NewRequest : string -> string -> option Request * option error)
  (path_Join : string -> string -> string)
  (client : Client) (name repository tag : string) (ports : gmap Z Z)
  (mounts files labels : gmap string string) (restart : bool) :
  (forall c e,
     outcome_of h (run client name repository tag ports mounts labels restart) w =
       Returned (c, Some e) -> c = None) /\
  (forall c e,
     outcome_of h (RunDaemonized url_Parse http_NewRequest path_Join
                     name repository tag ports files labels restart) w =
       Returned (c, Some e) -> c = None).
Proof.
  split.
  - unfold outcome_of.
    destruct (exec h (run client name repository tag ports mounts labels restart) w)
      as [[tr out] w'] eqn:Hexec.
    cbn [fst snd]. run_cases h Hexec.
    all: intros c e' Hout; try discriminate Hout.
    all: injection Hout as <- _; reflexivity.
  - destruct (RunDaemonized_phases h url_Parse http_NewRequest path_Join w
                name repository tag ports files labels restart)
      as [(e0 & _ & ->) | [(c & root & e0 & _ & ->) | [(c & root & wL & _ & Hload)
         | (c & root & wL & wR & _ & _ & ->)]]].
    + intros c e Hout. injection Hout as <- _. reflexivity.
    + intros c' e Hout. injection Hout as <- _. reflexivity.
    + destruct Hload as [(msg & _ & ->) | (e0 & _ & ->)];
        intros c' e Hout; [discriminate Hout | injection Hout as <- _; reflexivity].
    + intros c' e. unfold daemon_result.
      destruct (outcome_of h _ wR) as [[c0 [e1 |]] | msg]; intros Hout;
        [injection Hout as <- _; reflexivity | discriminate Hout | discriminate Hout].
Qed.

End ContainerExtras.

(** ** Runs of RunLambda *)

Module LambdaFacts.
Import Docker Http Effects ContainerPkg Traces MoreTraces Lambda ContainerFacts ContainerMore.

Section LExec.
Context {W : Type} (lh : lhandler W).

Lemma lexec_lbind {A B : Type} (p : lprog A) (f : A -> lprog B) : forall w,
  lexec lh (lbind p f) w =
    match lexec lh p w with
    | (tr, Returned a, w1) =>
        let '(tr', o, w2) := lexec lh (f a) w1 in ((tr ++ tr')%list, o, w2)
    | (tr, Panicked msg, w1) => (tr, Panicked msg, w1)
    end.
Proof.
  induction p as [a | X c k IH | msg]; intros w; cbn [lbind lexec].
  - destruct (lexec lh (f a) w) as [[tr' o] w2]. reflexivity.
  - destruct (lh X c w) as [x w1]. rewrite IH.
    destruct (lexec lh (k x) w1) as [[tr [a | msg]] w2]; [| reflexivity].
    destruct (lexec lh (f a) w2) as [[tr' o] w3]. reflexivity.
  - reflexivity.
Qed.

(** A function of the rest of the package runs inside [RunLambda] as it
    runs on its own. *)
Lemma lexec_lift {A : Type} (p : prog A) : forall w,
  lexec lh (lift p) w =
    let '(tr, o, w1) := exec (base_handler lh) p w in (map LEv tr, o, w1).
Proof.
  induction p as [a | X c k IH | msg]; intros w; cbn [lift lexec exec].
  - reflexivity.
  - unfold base_handler at 1. destruct (lh X (Base c) w) as [x w1].
    rewrite IH. destruct (exec (base_handler lh) (k x) w1) as [[tr o] w2].
    reflexivity.
  - reflexivity.
Qed.

End LExec.

(** One step of a run of [RunLambda]. *)
Ltac lrun_step lh H :=
  cbn [lbind lexec levent_of event_of ltrigger llog snd] in H;
  match type of H with
  | context [lh ?X ?c ?w] => destruct (lh X c w) as [? ?]
  | context [snd ?x] => is_var x; destruct x
  | context [match ?x with _ => _ end] => is_var x; destruct x
  end.

Ltac lrun_all lh H :=
  repeat lrun_step lh H; cbn [lbind lexec levent_of event_of ltrigger llog snd] in H.

(** The run of [RunLambda] to its end: no client; [run] failed; or [run]
    gave a handle, with every way waiting, reading the logs and removing can
    go. [Hrun] names what is known of the run of [run]. *)
Ltac lambda_cases lh H Hrun :=
  unfold RunLambda in H;
  do 2 lrun_step lh H;
  [| lrun_all lh H; injection H as <- <- <-];
  [ rewrite lexec_lbind, lexec_lift in H;
    match type of H with
    | context [exec (base_handler lh) (run ?c ?n ?r ?t ?p ?m ?l false) ?w0] =>
        pose proof (run_no_restart_result (base_handler lh) w0 c n r t p m l) as Hrun;
        cbv zeta in Hrun; unfold trace_of, outcome_of in Hrun;
        destruct (exec (base_handler lh) (run c n r t p m l false) w0) as [[? ?] ?]
    end;
    cbn [fst snd] in Hrun;
    let Hquiet := fresh "Hquiet" in
    let Hnolist := fresh "Hnolist" in
    destruct Hrun as (Hquiet & Hnolist & [(? & -> & Hrun) | (? & ? & -> & Hrun)]);
    [ cbn [lexec] in H; injection H as <- <- <-
    | cbn [lexec lbind] in H;
      unfold wait_and_collect, remove_lambda in H;
      lrun_all lh H; injection H as <- <- <- ]
  | ].

(** The calls of [run] inside a run of [RunLambda]. *)
Lemma In_lifted (x : levent) (l : list event) :
  In x (map LEv l) -> exists ev, x = LEv ev /\ In ev l.
Proof. intros Hin. apply in_map_iff in Hin as (ev & <- & Hev). eauto. Qed.

Lemma In_LEv (ev : event) (l : list event) : In (LEv ev) (map LEv l) <-> In ev l.
Proof.
  split; [| apply in_map].
  intros Hin. apply In_lifted in Hin as (ev' & Heq & Hev). congruence.
Qed.

(** All the ways an event can be a member of a trace of [RunLambda]; what
    is left is membership in the calls of [run]. *)
Ltac lsplit_in H :=
  repeat (rewrite ?in_app_iff in H; cbn [In] in H);
  repeat match type of H with
         | _ \/ _ => destruct H as [H | H]
         | False => destruct H
         end;
  try discriminate H;
  try (apply In_lifted in H as (? & ? & H); try discriminate).

(** Cutting a concrete list of events at its remove call. *)
Ltac cut_at_remove mid k :=
  lazymatch mid with
  | LEv (EvRemoveContainer ?i _ _ ?r) :: ?post => k (@nil levent) i r post
  | ?a :: ?rest => cut_at_remove rest ltac:(fun pre i r post => k (a :: pre) i r post)
  end.

End LambdaFacts.

(** ** Properties of RunLambda *)

Section LambdaExtras.
Import Docker Http Effects ContainerPkg Traces MoreTraces Fixtures MoreFixtures Lambda.
Import ContainerFacts ContainerMore LambdaFacts.

(** X27. [RunLambda] always returns, never lists and never kills. When it
    returns a nil error the wait for the container's exit has succeeded; an
    error of reading the logs or of removing the container is logged and not
    returned. *)
Theorem RunLambda_returns {W : Type} (lh : lhandler W) (w : W)
  (name repository tag : string) (mounts : gmap string string) :
  let tr := ltrace_of lh (RunLambda name repository tag mounts) w in
  let out := loutcome_of lh (RunLambda name repository tag mounts) w in
  (exists r, out = Returned r) /\
  (forall all r, ~ In (LEv (EvListContainers all r)) tr) /\
  (forall id r, ~ In (LEv (EvKillContainer id r)) tr) /\
  (forall stdout stderr, out = Returned (stdout, stderr, None) ->
     exists id status, In (LEvWait id (status, None)) tr).
Proof.
  intros tr out. subst tr out. unfold ltrace_of, loutcome_of.
  destruct (lexec lh (RunLambda name repository tag mounts) w) as [[tr out] w'] eqn:Hexec.
  cbn [fst snd].
  lambda_cases lh Hexec Hrun.
  all: split; [eexists; reflexivity |].
  all: split; [intros all r Hl; lsplit_in Hl;
               try (match goal with Heq : LEv _ = LEv _ |- _ => injection Heq as <- end;
                    eapply Hnolist; exact Hl) |].
  all: split; [intros id r Hk; lsplit_in Hk;
               try (match goal with Heq : LEv _ = LEv _ |- _ => injection Heq as <- end;
                    apply Hquiet in Hk; discriminate Hk) |].
  all: intros so se Hout; try discriminate Hout.
  all: eexists _, _; locate.
Qed.

(** X28. When the start of the container has succeeded, [RunLambda] removes
    a container on every path to its return, whether waiting, reading the
    logs or the removal itself fail: exactly one remove call is made, forced
    and with the volumes, after it only log lines are written, and it is for
    the container of the handle [run] returned (the inspected snapshot, or
    the created handle when the inspection failed). *)
Theorem RunLambda_removes_after_start {W : Type} (lh : lhandler W) (w : W)
  (name repository tag : string) (mounts : gmap string string) (id : string) :
  let tr := ltrace_of lh (RunLambda name repository tag mounts) w in
  In (LEv (EvStartContainer id None)) tr ->
  exists removed r before after,
    tr = (before ++ LEv (EvRemoveContainer removed true true r) :: after)%list /\
    (forall ev, In ev before -> is_lremove ev = false) /\
    (forall ev, In ev after -> is_llog ev = true) /\
    ((exists id' c, In (LEv (EvInspectContainer id' (Ok c))) tr /\ removed = Container_ID c) \/
     (exists id' e opts c,
        In (LEv (EvInspectContainer id' (Err e))) tr /\
        In (LEv (EvCreateContainer opts (Ok c))) tr /\ removed = Container_ID c)).
Proof.
  intros tr. subst tr. unfold ltrace_of.
  destruct (lexec lh (RunLambda name repository tag mounts) w) as [[tr out] w'] eqn:Hexec.
  cbn [fst snd].
  lambda_cases lh Hexec Hrun.
  all: intros Hstart.
  all: try (lsplit_in Hstart; fail).
  all: try (exfalso; lsplit_in Hstart;
            match goal with Heq : LEv _ = LEv _ |- _ => injection Heq as <- end;
            destruct Hrun as [Hnone _]; eapply Hnone; exact Hstart).
  all: destruct Hrun as (Hstarted & _ & Hhandle).
  all: match goal with
       | |- exists removed r0 before after, (?x :: ?pre ++ ?mid)%list = _ /\ _ =>
           cut_at_remove mid ltac:(fun mpre i r post =>
             exists i, r, (x :: pre ++ mpre)%list, post)
       end.
  all: split; [cbn [app]; rewrite <- app_assoc; reflexivity |].
  all: split; [intros ev Hev; lsplit_in Hev; subst; try reflexivity;
               match goal with H : In ?e _ |- _ => apply Hquiet in H; destruct e;
                 try discriminate H; reflexivity end |].
  all: split; [intros ev Hev; lsplit_in Hev; subst; reflexivity |].
  all: destruct Hhandle as [(id' & Hi) | (id' & e' & opts & Hi & Hc)];
    [ left; eexists _, _; split; [| reflexivity];
      right; apply in_app_iff; left; apply In_LEv; exact Hi
    | right; eexists _, _, _, _; split; [| split; [| reflexivity]];
      right; apply in_app_iff; left; apply In_LEv; eassumption ].
Qed.

Lemma RunLambda_removes_after_start_witness :
  exists removed r before after,
    ltrace_of (lscripted all_fine (0, None) ("ok", "", None))
      (RunLambda "job" "repo" "latest" ∅) tt =
      (before ++ LEv (EvRemoveContainer removed true true r) :: after)%list.
Proof.
  destruct (RunLambda_removes_after_start (lscripted all_fine (0, None) ("ok", "", None)) tt
              "job" "repo" "latest" ∅ "c0ffee")
    as (removed & r & before & after & Heq & _).
  { vm_compute. auto 20. }
  exists removed, r, before, after. exact Heq.
Defined.

(** X29. When the start of the container fails, [RunLambda] returns the
    start error and empty outputs, does not wait, and removes nothing: the
    cleanup is deferred only after [run] has returned without error, so the
    container that was created stays. *)
Theorem RunLambda_failed_start_not_removed {W : Type} (lh : lhandler W) (w : W)
  (name repository tag : string) (mounts : gmap string string)
  (id : string) (e : error) :
  let tr := ltrace_of lh (RunLambda name repository tag mounts) w in
  let out := loutcome_of lh (RunLambda name repository tag mounts) w in
  In (LEv (EvStartContainer id (Some e))) tr ->
  out = Returned ("", "", Some e) /\
  (forall ev, In ev tr -> is_lremove ev = false) /\
  (forall id' r, ~ In (LEvWait id' r) tr).
Proof.
  intros tr out. subst tr out. unfold ltrace_of, loutcome_of.
  destruct (lexec lh (RunLambda name repository tag mounts) w) as [[tr out] w'] eqn:Hexec.
  cbn [fst snd].
  lambda_cases lh Hexec Hrun.
  all: intros Hstart.
  all: try (lsplit_in Hstart; fail).
  all: try (exfalso; lsplit_in Hstart;
            match goal with Heq : LEv _ = LEv _ |- _ => injection Heq as <- end;
            destruct Hrun as (_ & Hnone & _); eapply Hnone; exact Hstart).
  lsplit_in Hstart.
  match goal with Heq : LEv _ = LEv _ |- _ => injection Heq as <- end.
  destruct Hrun as [_ Hsame]. apply Hsame in Hstart as ->.
  split; [reflexivity |]. split.
  - intros ev Hev. lsplit_in Hev; subst; try reflexivity.
    match goal with H : In ?e0 _ |- _ => apply Hquiet in H; destruct e0;
      try discriminate H; reflexivity end.
  - intros id' r Hw. lsplit_in Hw.
Qed.

Lemma RunLambda_failed_start_not_removed_witness :
  loutcome_of (lscripted start_fails (0, None) ("ok", "", None))
    (RunLambda "job" "repo" "latest" ∅) tt =
    Returned ("", "", Some (ExternalError "cannot start")).
Proof.
  apply (RunLambda_failed_start_not_removed (lscripted start_fails (0, None) ("ok", "", None))
           tt "job" "repo" "latest" ∅ "c0ffee" (ExternalError "cannot start")).
  vm_compute. auto 20.
Defined.

(** X30. After a successful start [RunLambda] waits for a container to
    exit. When waiting fails (also by cancellation) it returns that error
    and empty outputs without reading the logs; otherwise it reads the logs
    of the container it waited for, asking for standard output only, in
    raw-terminal mode, and returns what was written to the two streams with
    a nil error, also when reading the logs reported an error. *)
Theorem RunLambda_output {W : Type} (lh : lhandler W) (w : W)
  (name repository tag : string) (mounts : gmap string string) (id : string) :
  let tr := ltrace_of lh (RunLambda name repository tag mounts) w in
  let out := loutcome_of lh (RunLambda name repository tag mounts) w in
  In (LEv (EvStartContainer id None)) tr ->
  (exists waited status werr,
     In (LEvWait waited (status, werr)) tr /\
     match werr with
     | Some e =>
         out = Returned ("", "", Some e) /\ forall opts r, ~ In (LEvLogs opts r) tr
     | None =>
         exists stdout stderr err,
           In (LEvLogs {| Logs_Container := waited; Logs_Stdout := true;
                          Logs_Stderr := false; Logs_RawTerminal := true |}
                       (stdout, stderr, err)) tr /\
           out = Returned (stdout, stderr, None)
     end) /\
  (forall id' status e, In (LEvWait id' (status, Some e)) tr ->
     out = Returned ("", "", Some e) /\ forall opts r, ~ In (LEvLogs opts r) tr) /\
  (forall opts stdout stderr err, In (LEvLogs opts (stdout, stderr, err)) tr ->
     out = Returned (stdout, stderr, None) /\
     Logs_Stdout opts = true /\ Logs_Stderr opts = false /\ Logs_RawTerminal opts = true /\
     exists status, In (LEvWait (Logs_Container opts) (status, None)) tr).
Proof.
  intros tr out. subst tr out. unfold ltrace_of, loutcome_of.
  destruct (lexec lh (RunLambda name repository tag mounts) w) as [[tr out] w'] eqn:Hexec.
  cbn [fst snd].
  lambda_cases lh Hexec Hrun.
  all: intros Hstart.
  all: try (lsplit_in Hstart; fail).
  all: try (exfalso; lsplit_in Hstart;
            match goal with Heq : LEv _ = LEv _ |- _ => injection Heq as <- end;
            destruct Hrun as [Hnone _]; eapply Hnone; exact Hstart).
  all: clear Hstart; split; [| split].
  all: try (intros id0 status e' Hw; lsplit_in Hw; fail).
  all: try (intros opts so se err Hl; lsplit_in Hl; fail).
  all: try (intros id0 status e' Hw; lsplit_in Hw; injection Hw as _ _ <-;
            split; [reflexivity |]; intros opts r Hl; lsplit_in Hl).
  all: try (intros opts so se err Hl; lsplit_in Hl; injection Hl as <- <- <- <-;
            split; [reflexivity |]; repeat (split; [reflexivity |]);
            eexists; cbn [Logs_Container]; locate).
  all: eexists _, _, _; split; [locate |]; cbv beta iota.
  all: first [ split; [reflexivity |]; intros opts r Hl; lsplit_in Hl
             | eexists _, _, _; split; [locate | reflexivity] ].
Qed.

Lemma RunLambda_output_witness :
  loutcome_of (lscripted all_fine (0, None) ("ok", "", None))
    (RunLambda "job" "repo" "latest" ∅) tt = Returned ("ok", "", None) /\
  loutcome_of (lscripted all_fine (0, Some (ExternalError "context canceled")) ("ok", "", None))
    (RunLambda "job" "repo" "latest" ∅) tt =
    Returned ("", "", Some (ExternalError "context canceled")).
Proof.
  split.
  - destruct (RunLambda_output (lscripted all_fine (0, None) ("ok", "", None)) tt
                "job" "repo" "latest" ∅ "c0ffee") as (_ & _ & Hlogs).
    { vm_compute. auto 20. }
    destruct (Hlogs {| Logs_Container := "c0ffee"; Logs_Stdout := true;
                       Logs_Stderr := false; Logs_RawTerminal := true |} "ok" "" None)
      as (Hout & _); [vm_compute; auto 20 | exact Hout].
  - destruct (RunLambda_output
                (lscripted all_fine (0, Some (ExternalError "context canceled")) ("ok", "", None))
                tt "job" "repo" "latest" ∅ "c0ffee") as (_ & Hwait & _).
    { vm_compute. auto 20. }
    destruct (Hwait "c0ffee" 0 (ExternalError "context canceled")) as (Hout & _);
      [vm_compute; auto 20 | exact Hout].
Defined.

End LambdaExtras.
